(** * DataSync: the WebRTC / Yjs synchronisation core of lobe-chat

    A shallow embedding of [class DataSync] (the sync engine exported as
    [dataSync] / [syncBus]) and of the two sync entry points of
    [GlobalService] (src/services/global.ts).

    The external collaborators (the Yjs document, the y-webrtc provider, the
    Dexie tables, the host callbacks) are opaque in the source; every call the
    engine makes on one of them is recorded as an [Event] in a log, so that
    "which releases happen, in which order, on which object" is a statement
    about that log.  Asynchronous functions are embedded as trees of atomic
    actions separated by explicit [Await] nodes, one per [await] of the
    source: run to completion they give the behaviour of a call that nobody
    interleaves with, and stepped one segment at a time they give the
    interleavings of the event loop. *)

From Stdlib Require Import ZArith Lia Ascii String.

From stdpp Require Import gmap strings list fin_maps.

Open Scope string_scope.

Open Scope list_scope.

(** ** Data model *)

(** The closed set of table keys ([keyof LobeDBSchemaMap] as used by
    [initSync] and [initYjsObserve]). *)
Inductive TableKey := sessions | sessionGroups | topics | messages | plugins.

#[global] Instance TableKey_eq_dec : EqDecision TableKey.
Proof. solve_decision. Defined.

Definition allTables : list TableKey :=
  [sessions; sessionGroups; topics; messages; plugins].

Inductive SyncStatus := ready | syncing | synced.

#[global] Instance SyncStatus_eq_dec : EqDecision SyncStatus.
Proof. solve_decision. Defined.

Inductive Exn := ReferenceError | TypeError | StoreError.

#[global] Instance Exn_eq_dec : EqDecision Exn.
Proof. solve_decision. Defined.

(** [StartDataSyncParams]: the channel descriptor, the optional signaling
    endpoint and the user.  The three callbacks are the host's; a call of one
    of them is an [Event]. *)
Record StartDataSyncParams := {
  channel_name : string;
  channel_password : string;
  signaling : option string;
  user : string;
}.

#[global] Instance StartDataSyncParams_eq_dec : EqDecision StartDataSyncParams.
Proof. solve_decision. Defined.

Definition DocId := nat.

Definition ProvId := nat.

(** One entry of the list handed to [onAwarenessChange]. *)
Record AwarenessEntry := {
  ae_user : string;
  ae_clientID : nat;
  ae_current : bool;
}.

(** Calls on the collaborators, in the order the engine issues them. *)
Inductive Event :=
| EvNewDoc (d : DocId)
| EvObserve (d : DocId) (t : TableKey)
| EvNewProvider (p : ProvId) (name password sig : string) (d : option DocId)
| EvOn (p : ProvId) (name : string)
| EvAwarenessDestroy (p : ProvId)
| EvRoomDisconnect (p : ProvId)
| EvRoomDestroy (p : ProvId)
| EvProviderDisconnect (p : ProvId)
| EvProviderDestroy (p : ProvId)
| EvDocDestroy (d : DocId)
| EvSetLocalState (p : ProvId) (u : string)
| EvAwarenessOn (p : ProvId)
| EvAwarenessChange (l : list AwarenessEntry)
| EvTransact (d : DocId)
| EvStatus (s : SyncStatus).

(** The runtime the module is loaded in: whether [window] exists, whether
    [process.env.NODE_ENV] is ['development'], and which providers currently
    have a [room] (the transport creates it on its own schedule). *)
Record Env := {
  has_window : bool;
  development : bool;
  has_room : ProvId -> bool;
}.

(** The fields of the [DataSync] instance ([onAwarenessChange] records
    whether the field holds a callback), the global cleanup slot
    [window.__ONLY_USE_FOR_CLEANUP_IN_DEV], the allocator of object
    identities and the log (newest event first). *)
Record World := {
  _ydoc : option DocId;
  provider : option ProvId;
  syncParams : option StartDataSyncParams;
  onAwarenessChange : bool;
  cleanup_slot : option ProvId;
  next_id : nat;
  log : list Event;
}.

Definition initial : World :=
  {| _ydoc := None; provider := None; syncParams := None;
     onAwarenessChange := false; cleanup_slot := None; next_id := 0; log := [] |}.

(** The events in the order they happened. *)
Definition trace (w : World) : list Event := rev (log w).

Definition emit (e : Event) (w : World) : World :=
  {| _ydoc := _ydoc w; provider := provider w; syncParams := syncParams w;
     onAwarenessChange := onAwarenessChange w;
     cleanup_slot := cleanup_slot w; next_id := next_id w;
     log := e :: log w |}.

Definition emits (es : list Event) (w : World) : World :=
  foldl (fun w e => emit e w) w es.

Definition set_ydoc (d : DocId) (w : World) : World :=
  {| _ydoc := Some d; provider := provider w; syncParams := syncParams w;
     onAwarenessChange := onAwarenessChange w;
     cleanup_slot := cleanup_slot w; next_id := next_id w; log := log w |}.

Definition set_provider (p : ProvId) (w : World) : World :=
  {| _ydoc := _ydoc w; provider := Some p; syncParams := syncParams w;
     onAwarenessChange := onAwarenessChange w;
     cleanup_slot := cleanup_slot w; next_id := next_id w; log := log w |}.

Definition set_syncParams (ps : StartDataSyncParams) (w : World) : World :=
  {| _ydoc := _ydoc w; provider := provider w; syncParams := Some ps;
     onAwarenessChange := onAwarenessChange w;
     cleanup_slot := cleanup_slot w; next_id := next_id w; log := log w |}.

Definition set_cleanup_slot (p : option ProvId) (w : World) : World :=
  {| _ydoc := _ydoc w; provider := provider w; syncParams := syncParams w;
     onAwarenessChange := onAwarenessChange w;
     cleanup_slot := p; next_id := next_id w; log := log w |}.

Definition set_onAwarenessChange (w : World) : World :=
  {| _ydoc := _ydoc w; provider := provider w; syncParams := syncParams w;
     onAwarenessChange := true;
     cleanup_slot := cleanup_slot w; next_id := next_id w; log := log w |}.

Definition fresh (w : World) : nat * World :=
  (next_id w,
   {| _ydoc := _ydoc w; provider := provider w; syncParams := syncParams w;
     onAwarenessChange := onAwarenessChange w;
      cleanup_slot := cleanup_slot w; next_id := S (next_id w);
      log := log w |}).

(** ** Asynchronous programs *)

(** [Act m k] runs the synchronous state change [m] and goes on with [k];
    [Await k] is a suspension point: whatever else is runnable may run before
    [k] does. *)
Inductive Async (A : Type) : Type :=
| Ret (a : A)
| Throw (e : Exn)
| Act (m : World -> World) (k : World -> Async A)
| Await (k : Async A).

Arguments Ret {A} a.

Arguments Throw {A} e.

Arguments Act {A} m k.

Arguments Await {A} k.

Fixpoint bind {A B} (c : Async A) (g : A -> Async B) : Async B :=
  match c with
  | Ret a => g a
  | Throw e => Throw e
  | Act m k => Act m (fun w => bind (k w) g)
  | Await k => Await (bind k g)
  end.

Notation "'let*' x := c 'in' k" := (bind c (fun x => k))
  (at level 10, x name, c at level 100, k at level 200).

Notation "c >> k" := (bind c (fun _ => k))
  (at level 65, right associativity).

(** A synchronous statement, and a read of the state. *)
Definition act (m : World -> World) : Async unit := Act m (fun _ => Ret tt).

Definition get {A} (f : World -> A) : Async A :=
  Act (fun w => w) (fun w => Ret (f w)).

(** [await c]: the callee [c] starts at once and runs up to its own first
    suspension; the caller resumes one turn after [c] has settled. *)
Definition await {A} (c : Async A) : Async A :=
  let* x := c in Await (Ret x).

(** Outcome of a call: the value of a fulfilled promise or the reason of a
    rejected one. *)
Inductive Outcome (A : Type) := Fulfilled (a : A) | Rejected (e : Exn).

Arguments Fulfilled {A} a.

Arguments Rejected {A} e.

(** A call that runs alone: every suspension resumes with nothing in
    between. *)
Fixpoint run {A} (c : Async A) (w : World) : Outcome A * World :=
  match c with
  | Ret a => (Fulfilled a, w)
  | Throw e => (Rejected e, w)
  | Act m k => run (k (m w)) (m w)
  | Await k => run k w
  end.

(** One turn of the event loop for a task: run up to the next suspension. *)
Fixpoint segment {A} (c : Async A) (w : World) : Async A * World :=
  match c with
  | Ret a => (Ret a, w)
  | Throw e => (Throw e, w)
  | Act m k => segment (k (m w)) (m w)
  | Await k => (k, w)
  end.

(** ** The engine: [class DataSync] *)

Section DataSync.

Variable env : Env.

(** Reading or writing a property of the global [window]: a
    [ReferenceError] where there is none. *)
Definition window_get {A} (f : World -> A) : Async A :=
  if has_window env then get f else Throw ReferenceError.

Definition window_set (m : World -> World) : Async unit :=
  if has_window env then act m else Throw ReferenceError.

(** [transact(fn)]: [this._ydoc?.transact(fn)]. *)
Definition transact : Async unit :=
  let* d := get _ydoc in
  match d with
  | Some d => act (emit (EvTransact d))
  | None => Ret tt
  end.

(** [getYMap(tableKey)]: [this._ydoc?.getMap(tableKey)]; the map of a table
    is named by its document and its key. *)
Definition getYMap (tableKey : TableKey) : Async (option (DocId * TableKey)) :=
  let* d := get _ydoc in
  Ret (match d with Some d => Some (d, tableKey) | None => None end).

(** [initYDoc]: nothing without a [window]; otherwise the dynamic import,
    then a new document stored in [_ydoc]. *)
Definition initYDoc : Async unit :=
  if has_window env then
    Await (act (fun w => let '(d, w') := fresh w in
                         emit (EvNewDoc d) (set_ydoc d w')))
  else Ret tt.

(** [cleanConnection(provider)]: no suspension inside. *)
Definition cleanConnection (prov : option ProvId) : Async unit :=
  match prov with
  | Some p =>
      act (emit (EvAwarenessDestroy p)) >>
      (if has_room env p then act (emit (EvRoomDisconnect p)) else Ret tt) >>
      (if has_room env p then act (emit (EvRoomDestroy p)) else Ret tt) >>
      act (emit (EvProviderDisconnect p)) >>
      act (emit (EvProviderDestroy p)) >>
      let* d := get _ydoc in
      match d with
      | Some d => act (emit (EvDocDestroy d))
      | None => Ret tt
      end
  | None => Ret tt
  end.

(** [observeYMapChange], the registration part: [yItemMap?.observe(...)].
    The handler it registers is [Observer.observer_start] followed by
    [Observer.observer_resume], below. *)
Definition observeYMapChange (tableKey : TableKey) : Async unit :=
  let* m := getYMap tableKey in
  match m with
  | Some (d, t) => act (emit (EvObserve d t))
  | None => Ret tt
  end.

Definition initYjsObserve : Async unit :=
  foldr (fun t k => observeYMapChange t >> k) (Ret tt) allTables.

Definition default_signaling : string :=
  "wss://y-webrtc-signaling.lobehub.com".

(** [initAwareness]: needs a provider; the first awareness list goes to
    [this.onAwarenessChange], when that field was ever set. *)
Definition initAwareness (u : string) : Async unit :=
  let* pr := get provider in
  match pr with
  | None => Ret tt
  | Some p =>
      act (emit (EvSetLocalState p u)) >>
      (let* cb := get onAwarenessChange in
       if cb then
         act (emit (EvAwarenessChange
                      [{| ae_user := u; ae_clientID := p; ae_current := true |}]))
       else Ret tt) >>
      act (emit (EvAwarenessOn p))
  end.

(** [connect(params)].  Destructuring an undefined [params] is a
    [TypeError]. *)
Definition connect (params : option StartDataSyncParams) : Async ProvId :=
  match params with
  | None => Throw TypeError
  | Some ps =>
      await initYDoc >>
      initYjsObserve >>
      Await (Ret tt) >>
      let* d := get _ydoc in
      let* p := Act (fun w => snd (fresh w)) (fun w => Ret (pred (next_id w))) in
      act (emit (EvNewProvider p (channel_name ps) (channel_password ps)
                   (default default_signaling (signaling ps)) d)) >>
      act (set_provider p) >>
      (if development env
       then window_set (fun w => set_cleanup_slot (provider w) w)
       else Ret tt) >>
      act (emit (EvOn p "status")) >>
      act (emit (EvOn p "synced")) >>
      initAwareness (user ps) >>
      Ret p
  end.

(** [reconnect(params)]. *)
Definition reconnect (params : option StartDataSyncParams) : Async unit :=
  await (let* pr := get provider in cleanConnection pr) >>
  await (connect params) >>
  Ret tt.

(** The handler of the provider's ['status'] event. *)
Definition on_status (is_connected : bool) : Async unit :=
  if is_connected then act (emit (EvStatus ready)) else Ret tt.

(** The handler of the provider's ['synced'] event when the peers are not
    in sync: the callback that [setTimeout] runs one second later.  It
    starts [reconnect] and does not wait for it. *)
Definition retry_after_desync (ps : StartDataSyncParams) : Async unit :=
  act (emit (EvStatus syncing)) >>
  reconnect (Some ps).

(** [manualSync()]. *)
Definition manualSync : Async unit :=
  let* ps := get syncParams in
  await (reconnect ps).

(** [startDataSync(params)]. *)
Definition startDataSync (ps : StartDataSyncParams) : Async unit :=
  act (set_syncParams ps) >>
  act set_onAwarenessChange >>
  let* slot := window_get cleanup_slot in
  match slot with
  | Some p => await (cleanConnection (Some p))
  | None => Ret tt
  end >>
  await (connect (Some ps)) >>
  Ret tt.

(** ** [class GlobalService] (src/services/global.ts) *)

Definition enabledSync (ps : StartDataSyncParams) : Async bool :=
  if has_window env then await (startDataSync ps) >> Ret true
  else Ret false.

Definition GlobalService_reconnect (ps : StartDataSyncParams) : Async bool :=
  if has_window env then
    await (reconnect (Some ps)) >>
    await manualSync >>
    Ret true
  else Ret false.

End DataSync.

Definition browser_dev : Env :=
  {| has_window := true; development := true; has_room := fun _ => true |}.

Definition browser_prod : Env :=
  {| has_window := true; development := false; has_room := fun _ => true |}.

Definition server : Env :=
  {| has_window := false; development := false; has_room := fun _ => true |}.

Definition p1 : StartDataSyncParams :=
  {| channel_name := "room-a"; channel_password := "pw-a";
     signaling := None; user := "alice" |}.

Definition p2 : StartDataSyncParams :=
  {| channel_name := "room-b"; channel_password := "pw-b";
     signaling := Some "wss://example.org"; user := "alice" |}.

(** ** Live objects, read off the log *)

(** The providers constructed and not yet destroyed, for a log given newest
    event first; likewise the documents. *)
Fixpoint live_providers (l : list Event) : list ProvId :=
  match l with
  | [] => []
  | EvNewProvider p _ _ _ _ :: l' => p :: live_providers l'
  | EvProviderDestroy p :: l' =>
      filter (fun q => q <> p) (live_providers l')
  | _ :: l' => live_providers l'
  end.

Fixpoint live_docs (l : list Event) : list DocId :=
  match l with
  | [] => []
  | EvNewDoc d :: l' => d :: live_docs l'
  | EvDocDestroy d :: l' => filter (fun q => q <> d) (live_docs l')
  | _ :: l' => live_docs l'
  end.

(** At every moment of the history at most one provider and at most one
    document are alive: the moments are the suffixes of the log. *)
Definition single_session (l : list Event) : Prop :=
  forall l', l' `suffix_of` l ->
    length (live_providers l') <= 1 /\ length (live_docs l') <= 1.

(** A provider (a document) is only ever constructed when none is alive. *)
Definition built_after_teardown (l : list Event) : Prop :=
  (forall p n pw sg d l', EvNewProvider p n pw sg d :: l' `suffix_of` l ->
     live_providers l' = []) /\
  (forall d l', EvNewDoc d :: l' `suffix_of` l -> live_docs l' = []).

(** No provider is alive that the instance does not hold in
    [this.provider]. *)
Definition no_leak (w : World) : Prop :=
  forall p, p ∈ live_providers (log w) -> provider w = Some p.

(** ** Calls of the facade, one after the other and interleaved *)

Inductive Call :=
| CallStartDataSync (ps : StartDataSyncParams)
| CallReconnect (ps : StartDataSyncParams)
| CallManualSync.

Definition exec (env : Env) (c : Call) : Async unit :=
  match c with
  | CallStartDataSync ps => startDataSync env ps
  | CallReconnect ps => reconnect env (Some ps)
  | CallManualSync => manualSync env
  end.

(** Every call is awaited before the next one is made. *)
Definition run_calls (env : Env) (cs : list Call) (w : World) : World :=
  foldl (fun w c => snd (run (exec env c) w)) w cs.

(** The event loop with several calls in flight: a schedule names, turn by
    turn, the task that runs its next segment. *)
Definition turn {A} (i : nat) (st : list (Async A) * World)
  : list (Async A) * World :=
  match fst st !! i with
  | Some c => let '(c', w') := segment c (snd st) in (<[i:=c']> (fst st), w')
  | None => st
  end.

Definition interleave {A} (sched : list nat) (st : list (Async A) * World)
  : list (Async A) * World :=
  foldl (fun st i => turn i st) st sched.

Definition settled {A} (c : Async A) : bool :=
  match c with Ret _ | Throw _ => true | _ => false end.

(** The releases of one teardown, oldest first. *)
Definition teardown_events (env : Env) (p : ProvId) (d : option DocId)
  : list Event :=
  [EvAwarenessDestroy p] ++
  (if has_room env p then [EvRoomDisconnect p; EvRoomDestroy p] else []) ++
  [EvProviderDisconnect p; EvProviderDestroy p] ++
  match d with Some d => [EvDocDestroy d] | None => [] end.

(** The calls of one [connect], oldest first, for the fresh identity [n]. *)
Definition connect_events (ps : StartDataSyncParams) (cb : bool) (n : nat)
  : list Event :=
  [EvNewDoc n] ++ map (EvObserve n) allTables ++
  [EvNewProvider (S n) (channel_name ps) (channel_password ps)
     (default default_signaling (signaling ps)) (Some n);
   EvOn (S n) "status"; EvOn (S n) "synced"; EvSetLocalState (S n) (user ps)] ++
  (if cb then [EvAwarenessChange
                 [{| ae_user := user ps; ae_clientID := S n; ae_current := true |}]]
   else []) ++
  [EvAwarenessOn (S n)].

Definition connected (env : Env) (ps : StartDataSyncParams) (w : World) : World :=
  {| _ydoc := Some (next_id w); provider := Some (S (next_id w));
     syncParams := syncParams w; onAwarenessChange := onAwarenessChange w;
     cleanup_slot := if development env then Some (S (next_id w))
                     else cleanup_slot w;
     next_id := S (S (next_id w));
     log := rev (connect_events ps (onAwarenessChange w) (next_id w)) ++ log w |}.

(** ** Histories with a single session: vocabulary *)

(** What one more event must respect, given the history before it. *)
Definition step_ok (e : Event) (l : list Event) : Prop :=
  length (live_providers (e :: l)) <= 1 /\
  length (live_docs (e :: l)) <= 1 /\
  match e with
  | EvNewProvider _ _ _ _ _ => live_providers l = []
  | EvNewDoc _ => live_docs l = []
  | _ => True
  end.

Fixpoint hist_ok (l : list Event) : Prop :=
  match l with
  | [] => True
  | e :: l' => step_ok e l' /\ hist_ok l'
  end.

(** ** What each call does when it runs alone *)

Definition torn_down (env : Env) (p : ProvId) (w : World) : World :=
  emits (teardown_events env p (_ydoc w)) w.

(** [cleanConnection(this.provider)]. *)
Definition clean_this (env : Env) (w : World) : World :=
  match provider w with
  | Some p => torn_down env p w
  | None => w
  end.

(** [startDataSync]: the parameters and the awareness callback are stored,
    the provider in the global slot (if any) is torn down, then [connect]. *)
Definition started (env : Env) (ps : StartDataSyncParams) (w : World) : World :=
  let w0 := set_onAwarenessChange (set_syncParams ps w) in
  connected env ps
    match cleanup_slot w0 with
    | Some p => torn_down env p w0
    | None => w0
    end.

(** ** The session invariant between calls *)

Definition session_ok (w : World) : Prop :=
  (live_providers (log w) = [] /\ live_docs (log w) = []) \/
  (exists p d, provider w = Some p /\ _ydoc w = Some d /\
     live_providers (log w) = [p] /\ live_docs (log w) = [d]).

Record Inv (env : Env) (w : World) : Prop := {
  inv_hist : hist_ok (log w);
  inv_session : session_ok w;
  inv_slot : development env = true -> cleanup_slot w = provider w;
}.

Definition nothing_alive (w : World) : Prop :=
  live_providers (log w) = [] /\ live_docs (log w) = [].

(** A call that may be made in state [w]: [startDataSync] tears down only
    the provider of the global slot, which is only filled in development. *)
Definition admissible (env : Env) (w : World) (c : Call) : Prop :=
  match c with
  | CallStartDataSync _ =>
      development env = true \/ live_providers (log w) = []
  | _ => True
  end.

Fixpoint admissible_calls (env : Env) (cs : list Call) (w : World) : Prop :=
  match cs with
  | [] => True
  | c :: cs' =>
      admissible env w c /\ admissible_calls env cs' (snd (run (exec env c) w))
  end.

Definition C1_calls : list Call :=
  [CallStartDataSync p1; CallReconnect p2; CallManualSync;
   CallStartDataSync p2; CallManualSync].

(** Two reconnects in flight at once, after a first session exists: the
    automatic retry after a desync and a manual sync, taking turns at every
    suspension. *)
Definition two_reconnects : list (Async unit) * World :=
  interleave [0; 1; 0; 1; 0; 1; 0; 1; 0; 1; 0; 1]
    ([retry_after_desync browser_dev p1; manualSync browser_dev],
     run_calls browser_dev [CallStartDataSync p1] initial).

(** The state after a first [startDataSync] in a production browser. *)
Definition one_session : World :=
  run_calls browser_prod [CallStartDataSync p1] initial.

(** ** The stored parameters *)

(** The parameters of the last [startDataSync] among the calls [cs], if
    any. *)
Definition last_start (cs : list Call) : option StartDataSyncParams :=
  foldl (fun acc c => match c with
                      | CallStartDataSync ps => Some ps
                      | _ => acc
                      end) None cs.

Definition stored_after (acc : option StartDataSyncParams) (c : Call)
  : option StartDataSyncParams :=
  match c with CallStartDataSync ps => Some ps | _ => acc end.

(** The channel names the providers of a trace were constructed with. *)
Definition provider_channels (l : list Event) : list string :=
  omap (fun e => match e with
                 | EvNewProvider _ n _ _ _ => Some n
                 | _ => None
                 end) l.

(** * The table bridge: bootstrap load *)

Module Bootstrap.

(** A record of a table: its identifier and an opaque payload. *)
Record Item := { id : string; body : string }.

#[global] Instance Item_eq_dec : EqDecision Item.
Proof. solve_decision. Defined.

(** The replicated document: one map per table, and the transactions
    applied to it, oldest first, each with the map it wrote and the
    records it set. *)
Record YDoc := {
  ymaps : TableKey -> gmap string Item;
  transactions : list (TableKey * list Item);
}.

Definition empty_doc : YDoc :=
  {| ymaps := fun _ => ∅; transactions := [] |}.

(** Modelled from the spec: the local store ([LocalDBInstance], outside the
    sources) offers per table [toArray() -> ordered sequence of records].
    What the read settles with, per table: the records in the table's
    order, or nothing when the read rejects. *)
Definition LocalDB := TableKey -> option (list Item).

Definition batchSize : nat := 50.

(** [Math.ceil(items.length / batchSize)]. *)
Definition totalBatches (n : nat) : nat :=
  n / batchSize + (if Nat.eqb (n mod batchSize) 0 then 0 else 1).

(** [items.slice(start, end)] for [start <= end]. *)
Definition slice {A} (start end_ : nat) (l : list A) : list A :=
  take (end_ - start) (drop start l).

(** [batchItems.forEach((item) => yItemMap.set(item.id, item))]. *)
Definition set_all (m : gmap string Item) (batch : list Item)
  : gmap string Item :=
  foldl (fun m item => <[id item := item]> m) m batch.

(** One [transact] on the map of [tableKey]. *)
Definition transact_batch (tableKey : TableKey) (batchItems : list Item)
    (doc : YDoc) : YDoc :=
  {| ymaps := fun t => if decide (t = tableKey)
                       then set_all (ymaps doc t) batchItems
                       else ymaps doc t;
     transactions := transactions doc ++ [(tableKey, batchItems)] |}.

(** The [for] loop of [loadDataFromDBtoYjs]; [this._ydoc?.transact] does
    nothing on a null handle. *)
Definition load_items (tableKey : TableKey) (items : list Item)
    (_ydoc : option YDoc) : option YDoc :=
  foldl (fun doc i =>
           let start := i * batchSize in
           let end_ := start + batchSize in
           let batchItems := slice start end_ items in
           transact_batch tableKey batchItems <$> doc)
        _ydoc (seq 0 (totalBatches (length items))).

(** [loadDataFromDBtoYjs(tableKey)]: rejected when the read of the table
    rejects.  The reason of a rejected read is not modelled: every one is
    [StoreError], so only whether a load is rejected can be read off. *)
Definition loadDataFromDBtoYjs (db : LocalDB) (tableKey : TableKey)
    (_ydoc : option YDoc) : Outcome unit * option YDoc :=
  match db tableKey with
  | Some items => (Fulfilled tt, load_items tableKey items _ydoc)
  | None => (Rejected StoreError, _ydoc)
  end.

(** [initSync]: [Promise.all] over the five loads.  All five are started by
    the [map]; each goes on when its own read settles, in the order
    [settle_order]; the result is the first rejection, or fulfilled when
    every load is. *)
Definition initSync (db : LocalDB) (settle_order : list TableKey)
    (_ydoc : option YDoc) : Outcome unit * option YDoc :=
  foldl (fun st t =>
           let '(r, doc) := loadDataFromDBtoYjs db t (snd st) in
           (match fst st with
            | Rejected e => Rejected e
            | Fulfilled _ => r
            end, doc))
        (Fulfilled tt, _ydoc) settle_order.

(** Test data: [n] records with pairwise different identifiers. *)
Definition item_no (i : nat) : Item :=
  {| id := String.string_of_list_ascii (repeat "x"%char (S i));
     body := "payload" |}.

Definition items_upto (n : nat) : list Item := map item_no (seq 0 n).

End Bootstrap.

Import Bootstrap.

(** ** Batches *)

(** The batches the loop of [loadDataFromDBtoYjs] cuts [items] into. *)
Definition batches (items : list Item) : list (list Item) :=
  map (fun i => slice (i * batchSize) (i * batchSize + batchSize) items)
      (seq 0 (totalBatches (length items))).

Definition keyed (items : list Item) : list (string * Item) :=
  map (fun item => (id item, item)) items.

(** ** What a load does to the document *)

Definition apply_batches (t : TableKey) (bs : list (list Item)) (doc : YDoc)
  : YDoc :=
  foldl (fun d b => transact_batch t b d) doc bs.

(** The table of the example: 123 records. *)
Definition db123 : LocalDB := fun _ => Some (items_upto 123).

(** A table of three records, and a document whose maps already hold a
    record that a peer has sent. *)
Definition db3 : LocalDB := fun _ => Some (items_upto 3).

Definition remote_item : Item := {| id := "remote"; body := "from a peer" |}.

Definition doc_with_remote : YDoc :=
  {| ymaps := fun _ => {[ "remote" := remote_item ]}; transactions := [] |}.

(** ** Loads side by side *)

(** The loads whose read settled with records; those are the writes a
    table sees. *)
Definition loaded_alone (db : LocalDB) (t : TableKey) (doc : YDoc) : YDoc :=
  match db t with
  | Some items => apply_batches t (batches items) doc
  | None => doc
  end.

Definition own_transactions (t : TableKey) (doc : YDoc)
  : list (list Item) :=
  omap (fun tb => if decide (fst tb = t) then Some (snd tb) else None)
       (transactions doc).

Definition some_rejects (db : LocalDB) (ts : list TableKey) : bool :=
  existsb (fun t => match db t with None => true | Some _ => false end) ts.

Definition loaded_map (db : LocalDB) (t : TableKey) (m : gmap string Item)
  : gmap string Item :=
  match db t with Some items => set_all m items | None => m end.

Definition loaded_batches (db : LocalDB) (t : TableKey) : list (list Item) :=
  match db t with Some items => batches items | None => [] end.

(** The document after the loads of [ts] have run, in that order. *)
Definition loaded_all (db : LocalDB) (ts : list TableKey) (doc : YDoc) : YDoc :=
  foldl (fun d t => loaded_alone db t d) doc ts.

(** A database whose [topics] table cannot be read. *)
Definition db_topics_fails : LocalDB :=
  fun t => match t with
           | topics => None
           | sessions => Some (items_upto 3)
           | _ => Some (items_upto 60)
           end.

Definition some_order : list TableKey :=
  [topics; plugins; sessions; messages; sessionGroups].

(** * The table bridge: change observation *)

Module Observer.

(** [payload.action] of a changed key. *)
Inductive Action := Add | Update | Delete.

(** A change event of a replicated map: [event.transaction.local] and
    [event.keys]; a key occurs once. *)
Record ChangeEvent := {
  local : bool;
  keys : list (string * Action);
}.

(** Calls on the local table, oldest first.  [None] is the [undefined]
    that [yItemMap.get] gives for a key the map does not hold. *)
Inductive TableCall :=
| TGet (id : string)
| TAdd (item : option Item) (id : string)
| TUpdate (id : string) (item : option Item)
| TDelete (id : string).

Record Table := {
  rows : gmap string Item;
  calls : list TableCall;
}.

Definition called (c : TableCall) (tb : Table) : Table :=
  {| rows := rows tb; calls := calls tb ++ [c] |}.

(** Modelled from the spec: the local store is a collaborator outside the
    sources; per table it offers [get(id) -> record | absent],
    [add(record, id)], [update(id, record)] and [delete(id)].  As in the
    store the engine is written against, [add] refuses an identifier that
    is taken, [update] of an absent identifier changes nothing, [delete]
    of an absent identifier changes nothing, and neither [add] nor
    [update] accepts [undefined] for a record. *)
Definition table_get (id : string) (tb : Table) : option Item * Table :=
  (rows tb !! id, called (TGet id) tb).

(** Modelled from the spec: [add(record, id)] of the local store; an
    identifier that is taken, or no record, is refused. *)
Definition table_add (item : option Item) (id : string) (tb : Table)
  : Outcome unit * Table :=
  let tb' := called (TAdd item id) tb in
  match item, rows tb !! id with
  | Some it, None =>
      (Fulfilled tt, {| rows := <[id := it]> (rows tb'); calls := calls tb' |})
  | _, _ => (Rejected StoreError, tb')
  end.

(** Modelled from the spec: [update(id, partialOrFull)] of the local store;
    an absent identifier is left absent. *)
Definition table_update (id : string) (item : option Item) (tb : Table)
  : Outcome unit * Table :=
  let tb' := called (TUpdate id item) tb in
  match item, rows tb !! id with
  | Some it, Some _ =>
      (Fulfilled tt, {| rows := <[id := it]> (rows tb'); calls := calls tb' |})
  | Some _, None => (Fulfilled tt, tb')
  | None, _ => (Rejected StoreError, tb')
  end.

(** Modelled from the spec: [delete(id)] of the local store; removing an
    absent identifier changes nothing. *)
Definition table_delete (id : string) (tb : Table) : Outcome unit * Table :=
  let tb' := called (TDelete id) tb in
  (Fulfilled tt, {| rows := delete id (rows tb'); calls := calls tb' |}).

(** One element of [pools]: the application of one changed key. *)
Definition apply_change (yItemMap : gmap string Item)
    (change : string * Action) (tb : Table) : Outcome unit * Table :=
  let '(id, action) := change in
  let item := yItemMap !! id in
  match action with
  | Add | Update =>
      let '(itemInTable, tb1) := table_get id tb in
      match itemInTable with
      | None => table_add item id tb1
      | Some _ => table_update id item tb1
      end
  | Delete => table_delete id tb
  end.

(** [await Promise.all(pools)]: every key is applied, whatever happens to
    the others; the whole is rejected with the first rejection.  The keys
    of one event are pairwise different, so the applications do not
    interfere and are taken in the order of [event.keys]. *)
Definition apply_changes (yItemMap : gmap string Item)
    (changes : list (string * Action)) (tb : Table) : Outcome unit * Table :=
  foldl (fun st change =>
           let '(r, tb') := apply_change yItemMap change (snd st) in
           (match fst st with
            | Rejected e => Rejected e
            | Fulfilled _ => r
            end, tb'))
        (Fulfilled tt, tb) changes.

(** The state one observer closes over and acts on: the local table, the
    calls of [onSyncStatusChange] and of the throttled [updateSyncEvent]
    with their times, the timeouts that are pending (identity and due
    time, in the order they were set), and the variable [debounceTimer]. *)
Record Obs := {
  table : Table;
  statuses : list (Z * SyncStatus);
  syncEvents : list Z;
  timers : list (nat * Z);
  debounceTimer : option nat;
  next_timer : nat;
}.

Definition start_state : Obs :=
  {| table := {| rows := ∅; calls := [] |}; statuses := []; syncEvents := [];
     timers := []; debounceTimer := None; next_timer := 0 |}.

Definition onSyncStatusChange (now : Z) (st : SyncStatus) (s : Obs) : Obs :=
  {| table := table s; statuses := statuses s ++ [(now, st)];
     syncEvents := syncEvents s; timers := timers s;
     debounceTimer := debounceTimer s; next_timer := next_timer s |}.

(** [clearTimeout(debounceTimer)]: nothing for [undefined] or for a
    timeout that is no longer pending. *)
Definition clearTimeout (t : option nat) (s : Obs) : Obs :=
  match t with
  | None => s
  | Some i =>
      {| table := table s; statuses := statuses s;
         syncEvents := syncEvents s;
         timers := filter (fun x => fst x <> i) (timers s);
         debounceTimer := debounceTimer s; next_timer := next_timer s |}
  end.

Definition debounceDelay : Z := 2000.

(** [debounceTimer = setTimeout(() => onSyncStatusChange('synced'), 2000)]. *)
Definition arm_debounce (now : Z) (s : Obs) : Obs :=
  {| table := table s; statuses := statuses s; syncEvents := syncEvents s;
     timers := timers s ++ [(next_timer s, (now + debounceDelay)%Z)];
     debounceTimer := Some (next_timer s);
     next_timer := S (next_timer s) |}.

Definition updateSyncEvent (now : Z) (s : Obs) : Obs :=
  {| table := table s; statuses := statuses s;
     syncEvents := syncEvents s ++ [now]; timers := timers s;
     debounceTimer := debounceTimer s; next_timer := next_timer s |}.

Definition set_table (tb : Table) (s : Obs) : Obs :=
  {| table := tb; statuses := statuses s; syncEvents := syncEvents s;
     timers := timers s; debounceTimer := debounceTimer s;
     next_timer := next_timer s |}.

(** The handler up to [await Promise.all(pools)], run when the event is
    delivered: the state it leaves, and whether it is suspended (it is not
    when it returned at once). *)
Definition observer_start (ev : ChangeEvent) (now : Z) (s : Obs)
  : Obs * bool :=
  if local ev then (s, false)
  else
    let s := clearTimeout (debounceTimer s) s in
    let s := onSyncStatusChange now syncing s in
    (s, true).

(** The handler from the [await] on, run when the applications have
    settled; the calls on the table are accounted for at that moment.
    Nothing more happens after a rejection. *)
Definition observer_resume (yItemMap : gmap string Item) (ev : ChangeEvent)
    (now : Z) (s : Obs) : Obs :=
  let '(r, tb) := apply_changes yItemMap (keys ev) (table s) in
  let s := set_table tb s in
  match r with
  | Rejected _ => s
  | Fulfilled _ => arm_debounce now (updateSyncEvent now s)
  end.

(** The timeouts due at [now] run, oldest first, each at its due time. *)
Definition fire_due (now : Z) (s : Obs) : Obs :=
  {| table := table s;
     statuses := statuses s ++
       map (fun x => (snd x, synced))
           (filter (fun x => (snd x <= now)%Z) (timers s));
     syncEvents := syncEvents s;
     timers := filter (fun x => ~ (snd x <= now)%Z) (timers s);
     debounceTimer := debounceTimer s; next_timer := next_timer s |}.

(** What the event loop runs, and when. *)
Inductive Happening :=
| Delivered (ev : ChangeEvent)
| Settled (ev : ChangeEvent).

Definition happen (yItemMap : gmap string Item) (s : Obs)
    (h : Z * Happening) : Obs :=
  let s := fire_due (fst h) s in
  match snd h with
  | Delivered ev => fst (observer_start ev (fst h) s)
  | Settled ev =>
      if local ev then s else observer_resume yItemMap ev (fst h) s
  end.

(** A timeline (times in ascending order), then the clock runs on to
    [until]. *)
Definition timeline (yItemMap : gmap string Item)
    (hs : list (Z * Happening)) (until : Z) (s : Obs) : Obs :=
  fire_due until (foldl (happen yItemMap) s hs).

End Observer.

Import Observer.

Definition item_a : Item := {| id := "a"; body := "new" |}.

Definition item_a_old : Item := {| id := "a"; body := "old" |}.

Definition local_edit : ChangeEvent :=
  {| local := true; keys := [("a", Update); ("b", Delete)] |}.

(** A state with a row, a status, and a pending timeout. *)
Definition busy_state : Obs :=
  {| table := {| rows := {[ "a" := item_a_old ]}; calls := [] |};
     statuses := [(0%Z, syncing)]; syncEvents := [0%Z];
     timers := [(0, 2000%Z)]; debounceTimer := Some 0; next_timer := 1 |}.

Definition table_with_a : Table :=
  {| rows := {[ "a" := item_a_old ]}; calls := [] |}.

Definition table_without_a : Table :=
  {| rows := ∅; calls := [] |}.

(** ** Timelines of events *)

(** A remote event all of whose changes can be applied: every key that is
    not deleted has its record in the replicated map. *)
Definition applicable (yItemMap : gmap string Item) (ev : ChangeEvent) : Prop :=
  local ev = false /\
  Forall (fun ch => snd ch = Delete \/ is_Some (yItemMap !! fst ch)) (keys ev).

(** Events handled one by one: each is delivered at its first time and its
    applications have settled at its second time, before the next one is
    delivered. *)
Definition one_by_one (es : list (Z * Z * ChangeEvent)) : list (Z * Happening) :=
  flat_map (fun e => [(fst (fst e), Delivered (snd e));
                      (snd (fst e), Settled (snd e))]) es.

(** After an event delivered at [a] and settled at [c]: every next event is
    delivered after [c], less than 2000ms after [a], and settles after it is
    delivered. *)
Fixpoint spaced (a c : Z) (es : list (Z * Z * ChangeEvent)) : Prop :=
  match es with
  | [] => True
  | (a', c', _) :: es' =>
      (c <= a')%Z /\ (a' < a + 2000)%Z /\ (a' <= c')%Z /\ spaced a' c' es'
  end.

Fixpoint last_settled (c : Z) (es : list (Z * Z * ChangeEvent)) : Z :=
  match es with
  | [] => c
  | (_, c', _) :: es' => last_settled c' es'
  end.

(** Between events either nothing is pending, or the one timeout that
    [debounceTimer] names, due after the next delivery. *)
Definition settling (s : Obs) (a : Z) : Prop :=
  timers s = [] \/
  exists i d, timers s = [(i, d)] /\ debounceTimer s = Some i /\ (a < d)%Z.

(** A remote edit of record [a], and the replicated map after it. *)
Definition remote_touch : ChangeEvent :=
  {| local := false; keys := [("a", Update)] |}.

Definition ymap_a : gmap string Item := {[ "a" := item_a ]}.

(** Two remote events 10ms apart whose applications take 50ms each: the
    second is delivered while the first is still being applied. *)
Definition overlapping : list (Z * Happening) :=
  [(0, Delivered remote_touch); (10, Delivered remote_touch);
   (50, Settled remote_touch); (60, Settled remote_touch)]%Z.

(** * More of the engine *)

(** ** Presence *)

(** A state of the presence sub-channel, as [initAwareness] publishes it:
    [{ clientID, user }]. *)
Record PeerState := { ps_clientID : nat; ps_user : string }.

(** [syncAwarenessToUI]: nothing without a provider; otherwise the whole
    list of known states goes to [this.onAwarenessChange], each entry with
    its user, its client identity and whether that identity is the local
    one.  [getStates] is what [awareness.getStates().values()] holds for a
    provider; the client identity of a provider's awareness is the
    provider's, as in [initAwareness]. *)
Definition syncAwarenessToUI (getStates : ProvId -> list PeerState)
  : Async unit :=
  let* pr := get provider in
  match pr with
  | None => Ret tt
  | Some p =>
      let state :=
        map (fun s => {| ae_user := ps_user s; ae_clientID := ps_clientID s;
                         ae_current := Nat.eqb (ps_clientID s) p |})
            (getStates p) in
      let* cb := get onAwarenessChange in
      if cb then act (emit (EvAwarenessChange state)) else Ret tt
  end.

(** The lists handed to [onAwarenessChange] in a trace. *)
Definition awareness_lists (l : list Event) : list (list AwarenessEntry) :=
  omap (fun e => match e with
                 | EvAwarenessChange x => Some x
                 | _ => None
                 end) l.

(** ** The ['synced'] handler, peers in sync *)

(** The handler of the provider's ['synced'] event when [synced] is true:
    ['syncing'], then [await this.initSync()], then ['synced'], which a
    rejected [initSync] skips.  The statuses it reports, and what [initSync]
    gave. *)
Definition on_synced_true (db : LocalDB) (settle_order : list TableKey)
    (_ydoc : option YDoc)
  : list SyncStatus * (Outcome unit * option YDoc) :=
  let r := initSync db settle_order _ydoc in
  (syncing :: match fst r with
              | Fulfilled _ => [synced]
              | Rejected _ => []
              end, r).

(** ** Events far apart *)

(** After an event settled at [c]: every next event is delivered more than
    2000ms later and settles after it is delivered. *)
Fixpoint quiet (c : Z) (es : list (Z * Z * ChangeEvent)) : Prop :=
  match es with
  | [] => True
  | (a', c', _) :: es' => (c + 2000 < a')%Z /\ (a' <= c')%Z /\ quiet c' es'
  end.

(** What is reported from the second of such events on: before each
    delivery the ['synced'] of the event before, then its own
    ['syncing']. *)
Fixpoint quiet_statuses (c : Z) (es : list (Z * Z * ChangeEvent))
  : list (Z * SyncStatus) :=
  match es with
  | [] => []
  | (a', c', _) :: es' =>
      ((c + 2000)%Z, synced) :: (a', syncing) :: quiet_statuses c' es'
  end.

(** A remote event whose actions agree with the replicated map: a key is
    reported deleted exactly when the map no longer holds it. *)
Definition faithful (yItemMap : gmap string Item) (ch : string * Action)
  : Prop :=
  snd ch = Delete <-> yItemMap !! fst ch = None.

(** ** States and events for the examples *)

(** A fresh instance after a hot reload: the slot still names the provider
    of the instance that is gone. *)
Definition reloaded : World :=
  {| _ydoc := None; provider := None; syncParams := None;
     onAwarenessChange := false; cleanup_slot := Some 7; next_id := 8;
     log := [] |}.

(** A replicated map with records [a] and [c], after a remote event that
    changed [a], added [c] and deleted [b]. *)
Definition ymap_ac : gmap string Item :=
  {[ "a" := item_a; "c" := {| id := "c"; body := "new" |} ]}.

Definition changes_acb : list (string * Action) :=
  [("a", Update); ("c", Add); ("b", Delete)].

Definition three_edits : list (Z * Z * ChangeEvent) :=
  [(500, 520, remote_touch); (1000, 1030, remote_touch)]%Z.

Definition two_late_edits : list (Z * Z * ChangeEvent) :=
  [(3000, 3020, remote_touch); (9000, 9010, remote_touch)]%Z.

(** Three peers are known; the local provider is [1]. *)
Definition three_peers : ProvId -> list PeerState :=
  fun _ => [{| ps_clientID := 4; ps_user := "bob" |};
            {| ps_clientID := 1; ps_user := "alice" |};
            {| ps_clientID := 9; ps_user := "carol" |}].

(** ** Identities *)

(** The identities in use are below the allocator. *)
Definition provider_allocated (w : World) : Prop :=
  forall p, provider w = Some p -> p < next_id w.

(** * Properties *)

(** ** Running programs *)

Lemma run_bind {A B} (c : Async A) (g : A -> Async B) (w : World) :
  run (bind c g) w =
  match run c w with
  | (Fulfilled a, w') => run (g a) w'
  | (Rejected e, w') => (Rejected e, w')
  end.
Proof.
  revert w. induction c as [a|e|m k IH|k IH]; intros w; simpl; auto.
Qed.

Lemma run_await {A} (c : Async A) (w : World) : run (await c) w = run c w.
Proof.
  unfold await. rewrite run_bind. destruct (run c w) as [[a|e] w']; reflexivity.
Qed.

Lemma run_get {A} (f : World -> A) (w : World) :
  run (get f) w = (Fulfilled (f w), w).
Proof. reflexivity. Qed.

Lemma run_act (m : World -> World) (w : World) :
  run (act m) w = (Fulfilled tt, m w).
Proof. reflexivity. Qed.

Lemma run_cleanConnection_Some env p w :
  run (cleanConnection env (Some p)) w =
  (Fulfilled tt, emits (teardown_events env p (_ydoc w)) w).
Proof.
  unfold teardown_events. destruct w as [d pr sp cb sl n l].
  destruct (has_room env p) eqn:Hr, d as [d|];
    cbn; rewrite ?Hr; reflexivity.
Qed.

Lemma run_cleanConnection_None env w :
  run (cleanConnection env None) w = (Fulfilled tt, w).
Proof. reflexivity. Qed.

Lemma run_connect_Some env ps w :
  has_window env = true ->
  run (connect env (Some ps)) w = (Fulfilled (S (next_id w)), connected env ps w).
Proof.
  intros Hw. destruct env as [hw dev hr]; simpl in Hw; subst hw.
  destruct w as [d pr sp cb sl n l].
  destruct dev, cb; reflexivity.
Qed.

Lemma run_connect_None env w :
  run (connect env None) w = (Rejected TypeError, w).
Proof. reflexivity. Qed.

(** ** Histories with a single session *)

Lemma hist_ok_suffix l l' : l' `suffix_of` l -> hist_ok l -> hist_ok l'.
Proof.
  intros [k ->]. induction k as [|e k IH]; simpl; [auto|].
  intros [_ H]. auto.
Qed.

Lemma hist_ok_single_session l : hist_ok l -> single_session l.
Proof.
  intros H l' Hs. apply (hist_ok_suffix _ _ Hs) in H.
  destruct l' as [|e l'']; simpl in *; [lia|].
  destruct H as [(Hp & Hd & _) _]. auto.
Qed.

Lemma hist_ok_built_after_teardown l : hist_ok l -> built_after_teardown l.
Proof.
  intros H. split.
  - intros p n pw sg d l' Hs. apply (hist_ok_suffix _ _ Hs) in H.
    destruct H as [(_ & _ & H) _]. exact H.
  - intros d l' Hs. apply (hist_ok_suffix _ _ Hs) in H.
    destruct H as [(_ & _ & H) _]. exact H.
Qed.

Lemma filter_other_singleton (p : nat) :
  filter (fun q => q <> p) [p] = [].
Proof.
  rewrite filter_cons. destruct (decide (p <> p)); [congruence|reflexivity].
Qed.

Lemma log_emits es w : log (emits es w) = rev es ++ log w.
Proof.
  revert w. induction es as [|e es IH]; intros w; [reflexivity|].
  change (emits (e :: es) w) with (emits es (emit e w)).
  rewrite IH. simpl. rewrite <- app_assoc. reflexivity.
Qed.

Lemma fields_emits es w :
  _ydoc (emits es w) = _ydoc w /\ provider (emits es w) = provider w /\
  syncParams (emits es w) = syncParams w /\
  onAwarenessChange (emits es w) = onAwarenessChange w /\
  cleanup_slot (emits es w) = cleanup_slot w /\
  next_id (emits es w) = next_id w.
Proof.
  revert w. induction es as [|e es IH]; intros w; [simpl; tauto|].
  change (emits (e :: es) w) with (emits es (emit e w)).
  apply (IH (emit e w)).
Qed.

(** A teardown of the provider and document that are alive (or of stale
    ones when nothing is alive) leaves nothing alive. *)
Lemma teardown_hist env p d l :
  hist_ok l ->
  live_providers l = [] \/ live_providers l = [p] ->
  live_docs l = [] \/ (exists d', live_docs l = [d'] /\ d = Some d') ->
  let l' := rev (teardown_events env p d) ++ l in
  hist_ok l' /\ live_providers l' = [] /\ live_docs l' = [].
Proof.
  intros H Hp Hd. unfold teardown_events, step_ok.
  destruct (has_room env p), d as [d|];
    destruct Hp as [Hp|Hp], Hd as [Hd|(d' & Hd & Hd')];
    try discriminate; try (injection Hd' as <-);
    simpl; unfold step_ok; simpl; rewrite ?Hp, ?Hd, ?filter_other_singleton;
    simpl; repeat split; auto; lia.
Qed.

(** A connect on a history with nothing alive builds exactly one pair. *)
Lemma connect_hist ps cb n l :
  hist_ok l -> live_providers l = [] -> live_docs l = [] ->
  let l' := rev (connect_events ps cb n) ++ l in
  hist_ok l' /\ live_providers l' = [S n] /\ live_docs l' = [n].
Proof.
  intros H Hp Hd. unfold connect_events.
  destruct cb; simpl; unfold step_ok; simpl; rewrite ?Hp, ?Hd;
    simpl; repeat split; auto; lia.
Qed.

(** ** What each call does when it runs alone *)

Lemma run_clean_this env w :
  run (let* pr := get provider in cleanConnection env pr) w
  = (Fulfilled tt, clean_this env w).
Proof.
  rewrite run_bind, run_get. unfold clean_this, torn_down.
  destruct (provider w) as [p|].
  - apply run_cleanConnection_Some.
  - reflexivity.
Qed.

Lemma run_reconnect_Some env ps w :
  has_window env = true ->
  run (reconnect env (Some ps)) w
  = (Fulfilled tt, connected env ps (clean_this env w)).
Proof.
  intros Hw. unfold reconnect.
  rewrite run_bind, run_await, run_clean_this.
  rewrite run_bind, run_await, run_connect_Some by assumption.
  reflexivity.
Qed.

Lemma run_reconnect_None env w :
  run (reconnect env None) w = (Rejected TypeError, clean_this env w).
Proof.
  unfold reconnect.
  rewrite run_bind, run_await, run_clean_this.
  rewrite run_bind, run_await, run_connect_None. reflexivity.
Qed.

Lemma run_manualSync env w :
  has_window env = true ->
  run (manualSync env) w =
  match syncParams w with
  | Some ps => (Fulfilled tt, connected env ps (clean_this env w))
  | None => (Rejected TypeError, clean_this env w)
  end.
Proof.
  intros Hw. unfold manualSync. rewrite run_bind, run_get, run_await. destruct (syncParams w) as [ps|].
  - apply run_reconnect_Some, Hw.
  - apply run_reconnect_None.
Qed.

Lemma run_startDataSync env ps w :
  has_window env = true ->
  run (startDataSync env ps) w = (Fulfilled tt, started env ps w).
Proof.
  intros Hw. unfold startDataSync, started, window_get. rewrite Hw.
  rewrite run_bind, run_act, run_bind, run_act, run_bind, run_get, run_bind.
  cbn [cleanup_slot set_onAwarenessChange set_syncParams].
  destruct (cleanup_slot w) as [p|].
  - rewrite run_await, run_cleanConnection_Some.
    rewrite run_bind, run_await, run_connect_Some by assumption. reflexivity.
  - cbn [run]. rewrite run_bind, run_await, run_connect_Some by assumption.
    reflexivity.
Qed.

Lemma run_startDataSync_no_window env ps w :
  has_window env = false ->
  run (startDataSync env ps) w
  = (Rejected ReferenceError, set_onAwarenessChange (set_syncParams ps w)).
Proof.
  intros Hw. unfold startDataSync, window_get. rewrite Hw. reflexivity.
Qed.

(** ** The session invariant between calls *)

Lemma Inv_initial env : Inv env initial.
Proof. split; simpl; auto. left. auto. Qed.

Lemma torn_down_inv env p w :
  Inv env w ->
  provider w = Some p \/ live_providers (log w) = [] ->
  Inv env (torn_down env p w) /\ nothing_alive (torn_down env p w).
Proof.
  intros [Hh Hs Hsl] Hp. unfold torn_down, nothing_alive.
  destruct (fields_emits (teardown_events env p (_ydoc w)) w)
    as (Ed & Ep & _ & _ & Es & _).
  rewrite log_emits.
  destruct (teardown_hist env p (_ydoc w) (log w) Hh) as (H1 & H2 & H3).
  - destruct Hs as [[Hs _]|(p' & d' & Hp' & _ & Hs & _)]; [auto|].
    destruct Hp as [Hp|Hp]; [right|left]; congruence.
  - destruct Hs as [[_ Hs]|(p' & d' & _ & Hd' & _ & Hs)]; [auto|].
    right. exists d'. auto.
  - split; [|auto]. split.
    + rewrite log_emits. exact H1.
    + left. rewrite log_emits. auto.
    + rewrite Es, Ep. exact Hsl.
Qed.

Lemma clean_this_inv env w :
  Inv env w -> Inv env (clean_this env w) /\ nothing_alive (clean_this env w).
Proof.
  intros HI. unfold clean_this. destruct (provider w) as [p|] eqn:Hp.
  - apply torn_down_inv; auto.
  - split; [exact HI|]. destruct (inv_session _ _ HI) as [H|(p & d & H & _)].
    + exact H.
    + congruence.
Qed.

Lemma connected_inv env ps w :
  Inv env w -> nothing_alive w -> Inv env (connected env ps w).
Proof.
  intros [Hh Hs Hsl] [Hp Hd].
  destruct (connect_hist ps (onAwarenessChange w) (next_id w) (log w) Hh Hp Hd)
    as (H1 & H2 & H3).
  split; simpl.
  - exact H1.
  - right. exists (S (next_id w)), (next_id w). auto.
  - intros ->. reflexivity.
Qed.

Lemma connected_no_leak env ps w :
  nothing_alive w -> no_leak (connected env ps w).
Proof.
  intros [Hp Hd] p. simpl. unfold connect_events.
  destruct (onAwarenessChange w); simpl; rewrite Hp; intros Hin;
    apply list_elem_of_singleton in Hin; subst p; reflexivity.
Qed.

Lemma Inv_no_leak env w : Inv env w -> no_leak w.
Proof.
  intros [_ [[Hs _]|(p & d & Hp & _ & Hs & _)] _] q Hq; rewrite Hs in Hq.
  - apply elem_of_nil in Hq. contradiction.
  - apply list_elem_of_singleton in Hq. congruence.
Qed.

Lemma call_inv env c w :
  has_window env = true -> Inv env w -> admissible env w c ->
  Inv env (snd (run (exec env c) w)).
Proof.
  intros Hw HI Hadm. destruct c as [ps|ps|]; unfold exec.
  - rewrite run_startDataSync by assumption. simpl in *. unfold started.
    set (w0 := set_onAwarenessChange (set_syncParams ps w)).
    assert (HI0 : Inv env w0) by (destruct HI; split; assumption).
    destruct (cleanup_slot w0) as [p|] eqn:Hsl.
    + destruct (torn_down_inv env p w0 HI0) as [H1 H2].
      * destruct Hadm as [Hdev|Hnone]; [left|right; exact Hnone].
        rewrite <- (inv_slot _ _ HI0 Hdev). exact Hsl.
      * apply connected_inv; assumption.
    + apply connected_inv; [assumption|].
      destruct (inv_session _ _ HI0) as [H|(p & d & Hp & _ & Hl & _)]; [exact H|].
      destruct Hadm as [Hdev|Hnone].
      * rewrite (inv_slot _ _ HI0 Hdev) in Hsl. congruence.
      * unfold w0 in Hl. simpl in Hl. congruence.
  - rewrite run_reconnect_Some by assumption. simpl.
    destruct (clean_this_inv env w HI). apply connected_inv; assumption.
  - rewrite run_manualSync by assumption.
    destruct (clean_this_inv env w HI).
    destruct (syncParams w); simpl; [apply connected_inv|]; assumption.
Qed.

Lemma run_calls_inv env cs w :
  has_window env = true -> Inv env w -> admissible_calls env cs w ->
  Inv env (run_calls env cs w).
Proof.
  intros Hw. revert w. induction cs as [|c cs IH]; intros w HI Hadm.
  - exact HI.
  - destruct Hadm as [Hc Hcs]. apply IH; [|exact Hcs].
    apply call_inv; assumption.
Qed.

(** ** C1: a single live session *)

(** C1 (as amended).  In a runtime with a [window], for every sequence of
    [startDataSync] / [reconnect] / [manualSync] calls in which each call is
    awaited before the next one is made, and in which [startDataSync] is
    only called in development mode or while no provider is alive: at every
    moment at most one provider and at most one document are alive, every
    provider and every document is constructed while none is alive (the
    previous pair has been torn down), and at the end no provider is alive
    other than the one held in [this.provider]. *)
Theorem C1_sequential_single_session (env : Env) (cs : list Call) :
  has_window env = true ->
  admissible_calls env cs initial ->
  single_session (log (run_calls env cs initial)) /\
  built_after_teardown (log (run_calls env cs initial)) /\
  no_leak (run_calls env cs initial).
Proof.
  intros Hw Hadm.
  pose proof (run_calls_inv env cs initial Hw (Inv_initial env) Hadm) as HI.
  split; [|split].
  - apply hist_ok_single_session, (inv_hist _ _ HI).
  - apply hist_ok_built_after_teardown, (inv_hist _ _ HI).
  - apply (Inv_no_leak env), HI.
Qed.

Lemma C1_sequential_single_session_witness :
  single_session (log (run_calls browser_dev C1_calls initial)) /\
  built_after_teardown (log (run_calls browser_dev C1_calls initial)) /\
  no_leak (run_calls browser_dev C1_calls initial).
Proof.
  apply (C1_sequential_single_session browser_dev C1_calls).
  - reflexivity.
  - simpl. repeat split; left; reflexivity.
Defined.

(** C1 fails as stated, in two ways.  Outside development mode a second
    awaited [startDataSync] builds a second provider and a second document
    while the first ones are alive.  And an automatic retry overlapping
    with a manual sync: both tear down the old provider, both settle, and
    two providers and two documents are alive, of which only the later
    provider is held by the instance. *)
Lemma C1_counterexample :
  (let w := run_calls browser_prod
              [CallStartDataSync p1; CallStartDataSync p1] initial in
   live_providers (log w) = [3; 1] /\ live_docs (log w) = [2; 0] /\
   ~ single_session (log w)) /\
  (forallb settled (fst two_reconnects) = true /\
   live_providers (log (snd two_reconnects)) = [5; 4] /\
   live_docs (log (snd two_reconnects)) = [3; 2] /\
   provider (snd two_reconnects) = Some 5 /\
   ~ single_session (log (snd two_reconnects)) /\
   ~ no_leak (snd two_reconnects)).
Proof.
  split.
  - cbv zeta. split; [reflexivity|]. split; [reflexivity|].
    intros H. destruct (H _ (reflexivity _)) as [H1 _].
    vm_compute in H1. lia.
  - split; [reflexivity|]. split; [reflexivity|]. split; [reflexivity|].
    split; [reflexivity|]. split.
    + intros H. destruct (H _ (reflexivity _)) as [H1 _].
      vm_compute in H1. lia.
    + intros H. specialize (H 4).
      assert (Hin : 4 ∈ live_providers (log (snd two_reconnects))).
      { change (4 ∈ [5; 4]). apply list_elem_of_further, list_elem_of_here. }
      apply H in Hin. vm_compute in Hin. discriminate Hin.
Qed.

(** ** C6: the teardown contract *)

Lemma trace_emits es w : trace (emits es w) = trace w ++ es.
Proof.
  unfold trace. rewrite log_emits, rev_app_distr, rev_involutive. reflexivity.
Qed.

(** C6 (as amended).  [cleanConnection] called with a provider issues, in
    this order and nothing else: the destruction of the awareness
    sub-channel; the disconnect and then the destruction of the room, when
    the provider has one; the disconnect and then the destruction of the
    provider; the destruction of the document, when the handle holds one.
    It changes no field of the instance and fulfils.  Called with no
    provider it issues nothing, changes nothing and fulfils. *)
Theorem C6_teardown_order (env : Env) (p : ProvId) (w : World) :
  (exists w',
     run (cleanConnection env (Some p)) w = (Fulfilled tt, w') /\
     trace w' = trace w ++
       [EvAwarenessDestroy p] ++
       (if has_room env p then [EvRoomDisconnect p; EvRoomDestroy p] else []) ++
       [EvProviderDisconnect p; EvProviderDestroy p] ++
       match _ydoc w with Some d => [EvDocDestroy d] | None => [] end /\
     provider w' = provider w /\ _ydoc w' = _ydoc w) /\
  run (cleanConnection env None) w = (Fulfilled tt, w).
Proof.
  split; [|reflexivity].
  exists (emits (teardown_events env p (_ydoc w)) w).
  destruct (fields_emits (teardown_events env p (_ydoc w)) w)
    as (Ed & Ep & _).
  repeat split; auto using run_cleanConnection_Some, trace_emits.
Qed.

(** C6 fails as stated for two teardowns in a row: the instance still
    holds the provider after the first one, and the second teardown issues
    all six releases again on the same provider and document. *)
Lemma C6_counterexample :
  let w1 := snd (run (cleanConnection browser_prod (provider one_session))
                   one_session) in
  let w2 := snd (run (cleanConnection browser_prod (provider w1)) w1) in
  provider w1 = Some 1 /\
  trace w2 = trace w1 ++
    [EvAwarenessDestroy 1; EvRoomDisconnect 1; EvRoomDestroy 1;
     EvProviderDisconnect 1; EvProviderDestroy 1; EvDocDestroy 0] /\
  trace w2 <> trace w1.
Proof.
  cbv zeta. split; [reflexivity|]. split; [reflexivity|].
  intros H. apply (f_equal length) in H. vm_compute in H. discriminate H.
Qed.

(** ** C8: no [window] *)

(** C8 (as amended).  Without a [window], the two entry points of
    [GlobalService], [enabledSync] and [reconnect], return [false] and touch
    nothing; [initYDoc] leaves the handle as it is; and while the handle is
    null, [transact] does nothing and [getYMap] returns nothing.  No provider
    is constructed and nothing is thrown by any of them. *)
Theorem C8_no_window_noop (env : Env) (ps : StartDataSyncParams) (t : TableKey)
    (w : World) :
  has_window env = false ->
  _ydoc w = None ->
  run (enabledSync env ps) w = (Fulfilled false, w) /\
  run (GlobalService_reconnect env ps) w = (Fulfilled false, w) /\
  run (initYDoc env) w = (Fulfilled tt, w) /\
  run (transact) w = (Fulfilled tt, w) /\
  run (getYMap t) w = (Fulfilled None, w).
Proof.
  intros Hw Hd. unfold enabledSync, GlobalService_reconnect, initYDoc.
  rewrite Hw. repeat split; try reflexivity.
  - unfold transact. rewrite run_bind, run_get, Hd. reflexivity.
  - unfold getYMap. rewrite run_bind, run_get, Hd. reflexivity.
Qed.

Lemma C8_no_window_noop_witness :
  run (enabledSync server p1) initial = (Fulfilled false, initial) /\
  run (GlobalService_reconnect server p1) initial = (Fulfilled false, initial) /\
  run (initYDoc server) initial = (Fulfilled tt, initial) /\
  run (transact) initial = (Fulfilled tt, initial) /\
  run (getYMap messages) initial = (Fulfilled None, initial).
Proof.
  apply (C8_no_window_noop server p1 messages initial); reflexivity.
Defined.

(** C8 fails as stated for the engine's own [startDataSync] and [reconnect]:
    without a [window], [startDataSync] rejects (it reads a property of
    [window] after storing the parameters), and [reconnect] goes on to call
    the provider constructor with a null document. *)
Lemma C8_counterexample :
  fst (run (startDataSync server p1) initial) = Rejected ReferenceError /\
  snd (run (startDataSync server p1) initial) <> initial /\
  trace (snd (run (reconnect server (Some p1)) initial)) =
    [EvNewProvider 0 "room-a" "pw-a" default_signaling None;
     EvOn 0 "status"; EvOn 0 "synced"; EvSetLocalState 0 "alice";
     EvAwarenessOn 0].
Proof.
  split; [reflexivity|]. split; [|reflexivity].
  intros H. apply (f_equal syncParams) in H. discriminate H.
Qed.

(** ** C9 and C10: the parameters of [manualSync] *)

Lemma syncParams_torn_down env p w :
  syncParams (torn_down env p w) = syncParams w.
Proof.
  unfold torn_down.
  destruct (fields_emits (teardown_events env p (_ydoc w)) w)
    as (_ & _ & H & _). exact H.
Qed.

Lemma syncParams_clean_this env w :
  syncParams (clean_this env w) = syncParams w.
Proof.
  unfold clean_this. destruct (provider w); auto using syncParams_torn_down.
Qed.

Lemma syncParams_call env c w :
  has_window env = true ->
  syncParams (snd (run (exec env c) w)) = stored_after (syncParams w) c.
Proof.
  intros Hw. destruct c as [ps|ps|]; unfold exec.
  - rewrite run_startDataSync by assumption. simpl.
    destruct (cleanup_slot w); [apply syncParams_torn_down|reflexivity].
  - rewrite run_reconnect_Some by assumption. simpl.
    apply syncParams_clean_this.
  - rewrite run_manualSync by assumption.
    destruct (syncParams w) eqn:E; simpl; rewrite syncParams_clean_this; auto.
Qed.

Lemma syncParams_run_calls env cs w :
  has_window env = true ->
  syncParams (run_calls env cs w) = foldl stored_after (syncParams w) cs.
Proof.
  intros Hw. revert w. induction cs as [|c cs IH]; intros w; [reflexivity|].
  simpl. rewrite IH. rewrite syncParams_call by assumption. reflexivity.
Qed.

(** C9 (as amended).  [manualSync] performs a forced reconnect (full
    teardown, then connect) with the parameters of the most recent
    [startDataSync] call: after any sequence of awaited calls in a runtime
    with a [window], it behaves as [reconnect] called with the parameters
    that the last [startDataSync] of the sequence was given, whatever was
    passed to [reconnect] since. *)
Theorem C9_manualSync_uses_last_start (env : Env) (cs : list Call) :
  has_window env = true ->
  let w := run_calls env cs initial in
  syncParams w = last_start cs /\
  run (manualSync env) w = run (reconnect env (last_start cs)) w /\
  forall ps, last_start cs = Some ps ->
    run (manualSync env) w
    = (Fulfilled tt, snd (run (connect env (Some ps))
                            (snd (run (cleanConnection env (provider w)) w)))).
Proof.
  intros Hw w.
  assert (Hs : syncParams w = last_start cs).
  { unfold w. rewrite syncParams_run_calls by assumption. reflexivity. }
  split; [exact Hs|]. split.
  - unfold manualSync. rewrite run_bind, run_get, run_await, Hs. reflexivity.
  - intros ps Hps. rewrite run_manualSync by assumption.
    rewrite Hs, Hps, run_connect_Some by assumption. simpl.
    unfold clean_this, torn_down. destruct (provider w) as [p|].
    + rewrite run_cleanConnection_Some. reflexivity.
    + reflexivity.
Qed.

Lemma C9_manualSync_uses_last_start_witness :
  let w := run_calls browser_prod
             [CallStartDataSync p1; CallReconnect p2] initial in
  syncParams w = Some p1 /\
  run (manualSync browser_prod) w = run (reconnect browser_prod (Some p1)) w /\
  forall ps, Some p1 = Some ps ->
    run (manualSync browser_prod) w
    = (Fulfilled tt, snd (run (connect browser_prod (Some ps))
                    (snd (run (cleanConnection browser_prod (provider w)) w)))).
Proof.
  apply (C9_manualSync_uses_last_start browser_prod
           [CallStartDataSync p1; CallReconnect p2]).
  reflexivity.
Defined.

(** C9 fails as stated when the most recent call is a [reconnect]: after
    [startDataSync(p1)] and [reconnect(p2)], [manualSync] connects to the
    channel of [p1], not to the channel of [p2]. *)
Lemma C9_counterexample :
  let w := run_calls browser_prod
             [CallStartDataSync p1; CallReconnect p2] initial in
  provider_channels (trace w) = ["room-a"; "room-b"] /\
  provider_channels (trace (snd (run (manualSync browser_prod) w)))
    = ["room-a"; "room-b"; "room-a"] /\
  provider_channels (trace (snd (run (reconnect browser_prod (Some p2)) w)))
    = ["room-a"; "room-b"; "room-b"] /\
  run (manualSync browser_prod) w <> run (reconnect browser_prod (Some p2)) w.
Proof.
  cbv zeta. split; [vm_compute; reflexivity|].
  split; [vm_compute; reflexivity|]. split; [vm_compute; reflexivity|].
  intros H.
  apply (f_equal (fun r => provider_channels (trace (snd r)))) in H.
  vm_compute in H. discriminate H.
Qed.

(** C10.  In a runtime with a [window], once [startDataSync] has stored
    parameters [ps0], [GlobalService.reconnect(ps)] runs two complete
    teardown-and-connect cycles one after the other, the first with the
    parameters [ps] it was given and the second with the stored [ps0], and
    returns [true]: it ends in the state that [reconnect(ps)] followed by
    [reconnect(ps0)] ends in, and its trace is a teardown of the current
    provider, the connect of [ps], a teardown of the pair just built, and
    the connect of [ps0]. *)
Theorem C10_GlobalService_reconnect_twice (env : Env)
    (ps ps0 : StartDataSyncParams) (w : World) :
  has_window env = true ->
  syncParams w = Some ps0 ->
  exists w1 w2,
    run (reconnect env (Some ps)) w = (Fulfilled tt, w1) /\
    run (reconnect env (Some ps0)) w1 = (Fulfilled tt, w2) /\
    run (GlobalService_reconnect env ps) w = (Fulfilled true, w2) /\
    trace w2 = trace w ++
      match provider w with
      | Some p => teardown_events env p (_ydoc w)
      | None => []
      end ++
      connect_events ps (onAwarenessChange w) (next_id w) ++
      teardown_events env (S (next_id w)) (Some (next_id w)) ++
      connect_events ps0 (onAwarenessChange w) (S (S (next_id w))).
Proof.
  intros Hw Hs.
  set (w1 := connected env ps (clean_this env w)).
  set (w2 := connected env ps0 (clean_this env w1)).
  assert (Hs1 : syncParams w1 = Some ps0).
  { unfold w1. simpl. rewrite syncParams_clean_this. exact Hs. }
  exists w1, w2. split; [|split; [|split]].
  - apply run_reconnect_Some, Hw.
  - apply run_reconnect_Some, Hw.
  - unfold GlobalService_reconnect. rewrite Hw.
    rewrite run_bind, run_await, run_reconnect_Some by assumption.
    fold w1. rewrite run_bind, run_await, run_manualSync by assumption.
    rewrite Hs1. reflexivity.
  - assert (Hc : forall v, next_id (clean_this env v) = next_id v /\
                 onAwarenessChange (clean_this env v) = onAwarenessChange v /\
                 trace (clean_this env v) = trace v ++
                   match provider v with
                   | Some p => teardown_events env p (_ydoc v)
                   | None => []
                   end).
    { intros v. unfold clean_this, torn_down. destruct (provider v) as [p|].
      - destruct (fields_emits (teardown_events env p (_ydoc v)) v)
          as (_ & _ & _ & H1 & _ & H2).
        rewrite trace_emits. auto.
      - rewrite app_nil_r. auto. }
    assert (Hk : forall q v, trace (connected env q v) = trace v ++
                   connect_events q (onAwarenessChange v) (next_id v)).
    { intros q v. unfold trace. cbn [log connected].
      rewrite rev_app_distr, rev_involutive. reflexivity. }
    destruct (Hc w) as (En & Ecb & Et).
    assert (Ep1 : provider w1 = Some (S (next_id w)))
      by (unfold w1; cbn [provider connected]; rewrite En; reflexivity).
    assert (Ed1 : _ydoc w1 = Some (next_id w))
      by (unfold w1; cbn [_ydoc connected]; rewrite En; reflexivity).
    assert (En1 : next_id w1 = S (S (next_id w)))
      by (unfold w1; cbn [next_id connected]; rewrite En; reflexivity).
    assert (Ecb1 : onAwarenessChange w1 = onAwarenessChange w)
      by (unfold w1; cbn [onAwarenessChange connected]; exact Ecb).
    assert (Et1 : trace w1 = (trace w ++
              match provider w with
              | Some p => teardown_events env p (_ydoc w)
              | None => []
              end) ++ connect_events ps (onAwarenessChange w) (next_id w))
      by (unfold w1; rewrite Hk, En, Ecb, Et; reflexivity).
    destruct (Hc w1) as (En2 & Ecb2 & Et2).
    rewrite Ep1, Ed1, Et1 in Et2.
    unfold w2. rewrite Hk, En2, Ecb2, Et2, En1, Ecb1.
    rewrite <- !app_assoc. reflexivity.
Qed.

Lemma C10_GlobalService_reconnect_twice_witness :
  exists w1 w2,
    run (reconnect browser_prod (Some p2)) one_session = (Fulfilled tt, w1) /\
    run (reconnect browser_prod (Some p1)) w1 = (Fulfilled tt, w2) /\
    run (GlobalService_reconnect browser_prod p2) one_session
      = (Fulfilled true, w2) /\
    trace w2 = trace one_session ++
      match provider one_session with
      | Some p => teardown_events browser_prod p (_ydoc one_session)
      | None => []
      end ++
      connect_events p2 (onAwarenessChange one_session) (next_id one_session) ++
      teardown_events browser_prod (S (next_id one_session))
        (Some (next_id one_session)) ++
      connect_events p1 (onAwarenessChange one_session)
        (S (S (next_id one_session))).
Proof.
  apply (C10_GlobalService_reconnect_twice browser_prod p2 p1 one_session);
    reflexivity.
Defined.

(** ** Batches *)

Lemma slice_batch {A} (i : nat) (l : list A) :
  slice (i * batchSize) (i * batchSize + batchSize) l
  = take batchSize (drop (i * batchSize) l).
Proof.
  unfold slice. f_equal. lia.
Qed.

Lemma totalBatches_ceil (n : nat) :
  n <= batchSize * totalBatches n < n + batchSize.
Proof.
  unfold totalBatches, batchSize.
  pose proof (Nat.div_mod_eq n 50) as E.
  pose proof (Nat.mod_upper_bound n 50) as U.
  destruct (Nat.eqb_spec (n mod 50) 0); lia.
Qed.

Lemma concat_slices {A} (l : list A) (k : nat) :
  concat (map (fun i => slice (i * batchSize) (i * batchSize + batchSize) l)
              (seq 0 k))
  = take (k * batchSize) l.
Proof.
  induction k as [|k IH]; [reflexivity|].
  rewrite seq_S, map_app, concat_app, IH. cbn [map concat Nat.add].
  rewrite app_nil_r, slice_batch, take_take_drop. f_equal.
  unfold batchSize. lia.
Qed.

Lemma concat_batches (items : list Item) : concat (batches items) = items.
Proof.
  unfold batches. rewrite concat_slices. apply take_ge.
  pose proof (totalBatches_ceil (length items)). lia.
Qed.

Lemma length_batches (items : list Item) :
  length (batches items) = totalBatches (length items).
Proof. unfold batches. rewrite length_map, length_seq. reflexivity. Qed.

Lemma lookup_batches (items : list Item) (i : nat) (b : list Item) :
  batches items !! i = Some b ->
  b = take batchSize (drop (i * batchSize) items) /\
  1 <= length b <= batchSize.
Proof.
  unfold batches. intros H. apply list_lookup_fmap_Some in H.
  destruct H as (j & -> & Hj). apply lookup_seq in Hj. destruct Hj as [-> Hlt].
  cbn [Nat.add]. rewrite slice_batch. split; [reflexivity|].
  rewrite length_take, length_drop.
  pose proof (totalBatches_ceil (length items)). unfold batchSize in *. lia.
Qed.

(** ** What a load does to the document *)

Lemma load_items_Some t items doc :
  load_items t items (Some doc) = Some (apply_batches t (batches items) doc).
Proof.
  unfold load_items, apply_batches, batches.
  generalize (seq 0 (totalBatches (length items))) as is_.
  intros is_. revert doc. induction is_ as [|i is_ IH]; intros doc.
  - reflexivity.
  - simpl. apply IH.
Qed.

Lemma load_items_None t items : load_items t items None = None.
Proof.
  unfold load_items.
  induction (seq 0 (totalBatches (length items))) as [|i is_ IH]; auto.
Qed.

Lemma set_all_app m a b : set_all m (a ++ b) = set_all (set_all m a) b.
Proof. apply foldl_app. Qed.

Lemma apply_batches_transactions t bs doc :
  transactions (apply_batches t bs doc)
  = transactions doc ++ map (fun b => (t, b)) bs.
Proof.
  revert doc. induction bs as [|b bs IH]; intros doc; simpl.
  - rewrite app_nil_r. reflexivity.
  - unfold apply_batches in *. rewrite IH. simpl.
    rewrite <- app_assoc. reflexivity.
Qed.

Lemma apply_batches_same t bs doc :
  ymaps (apply_batches t bs doc) t = set_all (ymaps doc t) (concat bs).
Proof.
  revert doc. induction bs as [|b bs IH]; intros doc; simpl.
  - reflexivity.
  - unfold apply_batches in *. rewrite IH, set_all_app. simpl.
    destruct (decide (t = t)); [reflexivity|congruence].
Qed.

Lemma apply_batches_other t t' bs doc :
  t' <> t -> ymaps (apply_batches t bs doc) t' = ymaps doc t'.
Proof.
  intros Hne. revert doc. induction bs as [|b bs IH]; intros doc; simpl.
  - reflexivity.
  - unfold apply_batches in *. rewrite IH. simpl.
    destruct (decide (t' = t)); [congruence|reflexivity].
Qed.

(** Setting records with pairwise different identifiers one after the
    other: they all end up in the map, on top of what it held. *)
Lemma set_all_union m items :
  NoDup (map id items) ->
  set_all m items = list_to_map (keyed items) ∪ m.
Proof.
  revert m. induction items as [|it items IH]; intros m Hnd.
  - simpl. rewrite (left_id_L ∅ (∪)). reflexivity.
  - change (map id (it :: items)) with (id it :: map id items) in Hnd.
    apply NoDup_cons in Hnd. destruct Hnd as [Hnotin Hnd].
    change (set_all m (it :: items))
      with (set_all (<[id it := it]> m) items).
    change (keyed (it :: items)) with ((id it, it) :: keyed items).
    rewrite list_to_map_cons, IH by assumption.
    rewrite <- insert_union_l. symmetry. apply insert_union_r.
    apply not_elem_of_list_to_map_1. unfold keyed.
    rewrite <- list_fmap_compose. exact Hnotin.
Qed.

Lemma NoDup_keyed items : NoDup (map id items) -> NoDup (keyed items).*1.
Proof.
  unfold keyed. rewrite <- list_fmap_compose. auto.
Qed.

(** ** C2: the bootstrap load of one table *)

(** C2 (as amended).  When the read of table [t] yields the records
    [items] (with pairwise different identifiers, as a table has them) and
    the document handle is set, [loadDataFromDBtoYjs] fulfils after exactly
    ceil(n / 50) transactions, [n] the number of records: the [i]-th one
    sets the records [50 i .. 50 i + 49] of [items], between 1 and 50 of
    them, into the map of [t]; taken in order the batches are [items].
    The maps of the other tables are untouched.  Afterwards every record
    is in the map of [t] under its identifier, and what the map held under
    other identifiers is still there, unchanged: the load only sets.  The
    map holds exactly the [n] records when it held nothing under another
    identifier before, in particular when it was empty. *)
Theorem C2_bootstrap_batches (db : LocalDB) (t : TableKey)
    (items : list Item) (doc : YDoc) :
  db t = Some items ->
  NoDup (map id items) ->
  exists doc' bs,
    loadDataFromDBtoYjs db t (Some doc) = (Fulfilled tt, Some doc') /\
    transactions doc' = transactions doc ++ map (fun b => (t, b)) bs /\
    length bs = totalBatches (length items) /\
    length items <= 50 * length bs < length items + 50 /\
    (forall i b, bs !! i = Some b ->
       b = take 50 (drop (i * 50) items) /\ 1 <= length b <= 50) /\
    concat bs = items /\
    (forall t', t' <> t -> ymaps doc' t' = ymaps doc t') /\
    ymaps doc' t = list_to_map (keyed items) ∪ ymaps doc t /\
    (forall item, item ∈ items -> ymaps doc' t !! id item = Some item) /\
    (forall k, k ∉ map id items -> ymaps doc' t !! k = ymaps doc t !! k) /\
    ((forall k, is_Some (ymaps doc t !! k) -> k ∈ map id items) ->
       ymaps doc' t = list_to_map (keyed items) /\
       size (ymaps doc' t) = length items /\
       map_to_list (ymaps doc' t) ≡ₚ keyed items) /\
    (ymaps doc t = ∅ ->
       size (ymaps doc' t) = length items /\
       map_to_list (ymaps doc' t) ≡ₚ keyed items).
Proof.
  intros Hdb Hnd.
  exists (apply_batches t (batches items) doc), (batches items).
  assert (Hmap : ymaps (apply_batches t (batches items) doc) t
                 = list_to_map (keyed items) ∪ ymaps doc t).
  { rewrite apply_batches_same, concat_batches. apply set_all_union, Hnd. }
  assert (Hids : (keyed items).*1 = map id items).
  { unfold keyed. rewrite <- list_fmap_compose. reflexivity. }
  assert (Hexact : size (list_to_map (keyed items) : gmap string Item)
                   = length items /\
                   map_to_list (list_to_map (keyed items) : gmap string Item)
                     ≡ₚ keyed items).
  { split.
    - rewrite map_size_list_to_map by (apply NoDup_keyed, Hnd).
      unfold keyed. apply length_map.
    - apply map_to_list_to_map, NoDup_keyed, Hnd. }
  split; [|split; [|split; [|split; [|split; [|split; [|split;
    [|split; [|split; [|split; [|split]]]]]]]]]].
  - unfold loadDataFromDBtoYjs. rewrite Hdb, load_items_Some. reflexivity.
  - apply apply_batches_transactions.
  - apply length_batches.
  - rewrite length_batches. apply (totalBatches_ceil (length items)).
  - apply lookup_batches.
  - apply concat_batches.
  - intros t' Hne. apply apply_batches_other, Hne.
  - exact Hmap.
  - intros item Hin. rewrite Hmap. apply lookup_union_Some_l.
    apply elem_of_list_to_map_1; [apply NoDup_keyed, Hnd|].
    unfold keyed. apply list_elem_of_fmap. exists item. auto.
  - intros k Hk. rewrite Hmap. apply lookup_union_r.
    apply not_elem_of_list_to_map_1. rewrite Hids. exact Hk.
  - intros Hsub.
    assert (E : list_to_map (keyed items) ∪ ymaps doc t
                = list_to_map (keyed items)).
    { apply map_eq. intros k.
      destruct (list_to_map (keyed items) !! k) as [x|] eqn:Ek.
      - apply lookup_union_Some_l. exact Ek.
      - rewrite lookup_union_r by exact Ek.
        destruct (ymaps doc t !! k) as [y|] eqn:Ey; [|reflexivity].
        exfalso. apply not_elem_of_list_to_map_2 in Ek.
        apply Ek. rewrite Hids. apply Hsub. rewrite Ey. eauto. }
    rewrite Hmap, E. split; [reflexivity|]. exact Hexact.
  - intros Hempty. rewrite Hmap, Hempty, (right_id_L ∅ (∪)). exact Hexact.
Qed.

(** 123 records: three transactions of sizes 50, 50 and 23, and a map of
    123 entries. *)
Example bootstrap_123 :
  exists doc',
    loadDataFromDBtoYjs db123 messages (Some empty_doc)
      = (Fulfilled tt, Some doc') /\
    map (fun tb => (fst tb, length (snd tb))) (transactions doc')
      = [(messages, 50); (messages, 50); (messages, 23)] /\
    size (ymaps doc' messages) = 123.
Proof.
  eexists. split; [reflexivity|]. split; vm_compute; reflexivity.
Qed.

Lemma C2_bootstrap_batches_witness :
  exists doc' bs,
    loadDataFromDBtoYjs db123 messages (Some empty_doc)
      = (Fulfilled tt, Some doc') /\
    transactions doc'
      = transactions empty_doc ++ map (fun b => (messages, b)) bs /\
    length bs = totalBatches (length (items_upto 123)) /\
    length (items_upto 123) <= 50 * length bs < length (items_upto 123) + 50 /\
    (forall i b, bs !! i = Some b ->
       b = take 50 (drop (i * 50) (items_upto 123)) /\ 1 <= length b <= 50) /\
    concat bs = items_upto 123 /\
    (forall t', t' <> messages -> ymaps doc' t' = ymaps empty_doc t') /\
    ymaps doc' messages
      = list_to_map (keyed (items_upto 123)) ∪ ymaps empty_doc messages /\
    (forall item, item ∈ items_upto 123 ->
       ymaps doc' messages !! id item = Some item) /\
    (forall k, k ∉ map id (items_upto 123) ->
       ymaps doc' messages !! k = ymaps empty_doc messages !! k) /\
    ((forall k, is_Some (ymaps empty_doc messages !! k) ->
        k ∈ map id (items_upto 123)) ->
       ymaps doc' messages = list_to_map (keyed (items_upto 123)) /\
       size (ymaps doc' messages) = length (items_upto 123) /\
       map_to_list (ymaps doc' messages) ≡ₚ keyed (items_upto 123)) /\
    (ymaps empty_doc messages = ∅ ->
       size (ymaps doc' messages) = length (items_upto 123) /\
       map_to_list (ymaps doc' messages) ≡ₚ keyed (items_upto 123)).
Proof.
  apply (C2_bootstrap_batches db123 messages (items_upto 123) empty_doc).
  - reflexivity.
  - apply (bool_decide_unpack (NoDup (map id (items_upto 123)))).
    vm_compute. reflexivity.
Defined.

(** C2 fails as stated when the map already holds a record under an
    identifier the table does not have, as it can when the peers have
    synced: the load of a table of three records issues its one
    transaction and leaves a map of four entries, the peer's record among
    them. *)
Lemma C2_counterexample :
  exists doc',
    loadDataFromDBtoYjs db3 messages (Some doc_with_remote)
      = (Fulfilled tt, Some doc') /\
    length (items_upto 3) = 3 /\
    map (fun tb => length (snd tb)) (transactions doc') = [3] /\
    size (ymaps doc' messages) = 4 /\
    ymaps doc' messages !! "remote" = Some remote_item /\
    remote_item ∉ items_upto 3.
Proof.
  eexists. split; [reflexivity|]. split; [reflexivity|].
  split; [vm_compute; reflexivity|]. split; [vm_compute; reflexivity|].
  split; [vm_compute; reflexivity|].
  apply (bool_decide_unpack (remote_item ∉ items_upto 3)).
  vm_compute. reflexivity.
Qed.

(** ** C4: one failing table and its siblings *)

Lemma ymaps_loaded_alone_same db t doc :
  ymaps (loaded_alone db t doc) t = loaded_map db t (ymaps doc t).
Proof.
  unfold loaded_alone, loaded_map. destruct (db t) as [items|]; [|reflexivity].
  rewrite apply_batches_same, concat_batches. reflexivity.
Qed.

Lemma ymaps_loaded_alone_other db t t' doc :
  t' <> t -> ymaps (loaded_alone db t doc) t' = ymaps doc t'.
Proof.
  intros Hne. unfold loaded_alone. destruct (db t); [|reflexivity].
  apply apply_batches_other, Hne.
Qed.

Lemma own_transactions_app t doc t' bs :
  own_transactions t (apply_batches t' bs doc)
  = own_transactions t doc ++ (if decide (t' = t) then bs else []).
Proof.
  unfold own_transactions. rewrite apply_batches_transactions, omap_app.
  f_equal. destruct (decide (t' = t)) as [E|E].
  - induction bs as [|b bs IH]; [reflexivity|].
    simpl. case_decide; [|contradiction]. f_equal. exact IH.
  - induction bs as [|b bs IH]; [reflexivity|].
    simpl. case_decide; [contradiction|]. exact IH.
Qed.

Lemma own_loaded_alone_same db t doc :
  own_transactions t (loaded_alone db t doc)
  = own_transactions t doc ++ loaded_batches db t.
Proof.
  unfold loaded_alone, loaded_batches. destruct (db t).
  - rewrite own_transactions_app. destruct (decide (t = t)); congruence.
  - rewrite app_nil_r. reflexivity.
Qed.

Lemma own_loaded_alone_other db t t' doc :
  t' <> t ->
  own_transactions t' (loaded_alone db t doc) = own_transactions t' doc.
Proof.
  intros Hne. unfold loaded_alone. destruct (db t); [|reflexivity].
  rewrite own_transactions_app. destruct (decide (t = t')); [congruence|].
  apply app_nil_r.
Qed.

Lemma initSync_fold db ts r doc :
  foldl (fun st t =>
           let '(r, doc) := loadDataFromDBtoYjs db t (snd st) in
           (match fst st with
            | Rejected e => Rejected e
            | Fulfilled _ => r
            end, doc))
        (r, Some doc) ts
  = (match r with
     | Rejected e => Rejected e
     | Fulfilled _ =>
         if some_rejects db ts then Rejected StoreError else Fulfilled tt
     end,
     Some (loaded_all db ts doc)).
Proof.
  revert r doc. induction ts as [|t ts IH]; intros r doc.
  - destruct r as [[]|e]; reflexivity.
  - cbn [foldl]. unfold loadDataFromDBtoYjs at 2. cbn [snd fst].
    unfold loaded_all. cbn [foldl some_rejects existsb].
    unfold loaded_alone at 2.
    destruct (db t) as [items|] eqn:E.
    + rewrite load_items_Some, IH. destruct r; reflexivity.
    + rewrite IH. destruct r; reflexivity.
Qed.

Lemma loaded_all_ymaps db ts doc t :
  NoDup ts ->
  ymaps (loaded_all db ts doc) t
  = if decide (t ∈ ts) then loaded_map db t (ymaps doc t) else ymaps doc t.
Proof.
  revert doc. induction ts as [|t0 ts IH]; intros doc Hnd.
  - reflexivity.
  - apply NoDup_cons in Hnd. destruct Hnd as [Hnotin Hnd].
    change (loaded_all db (t0 :: ts) doc)
      with (loaded_all db ts (loaded_alone db t0 doc)).
    rewrite IH by assumption.
    destruct (decide (t = t0)) as [->|Hne].
    + rewrite decide_False by assumption.
      rewrite decide_True by apply list_elem_of_here.
      apply ymaps_loaded_alone_same.
    + rewrite ymaps_loaded_alone_other by assumption.
      destruct (decide (t ∈ ts)) as [Hin|Hin].
      * rewrite decide_True by (apply list_elem_of_further, Hin). reflexivity.
      * rewrite decide_False; [reflexivity|].
        intros H. apply elem_of_cons in H. tauto.
Qed.

Lemma loaded_all_own db ts doc t :
  NoDup ts ->
  own_transactions t (loaded_all db ts doc)
  = own_transactions t doc ++
    (if decide (t ∈ ts) then loaded_batches db t else []).
Proof.
  revert doc. induction ts as [|t0 ts IH]; intros doc Hnd.
  - simpl. rewrite app_nil_r. reflexivity.
  - apply NoDup_cons in Hnd. destruct Hnd as [Hnotin Hnd].
    change (loaded_all db (t0 :: ts) doc)
      with (loaded_all db ts (loaded_alone db t0 doc)).
    rewrite IH by assumption.
    destruct (decide (t = t0)) as [->|Hne].
    + rewrite decide_False by assumption.
      rewrite decide_True by apply list_elem_of_here.
      rewrite app_nil_r. apply own_loaded_alone_same.
    + rewrite own_loaded_alone_other by assumption.
      destruct (decide (t ∈ ts)) as [Hin|Hin].
      * rewrite decide_True by (apply list_elem_of_further, Hin). reflexivity.
      * rewrite decide_False; [reflexivity|].
        intros H. apply elem_of_cons in H. tauto.
Qed.

(** C4.  During the bootstrap load of all tables, whatever the order in
    which the five reads settle and whichever of them reject: the load of
    every table whose read succeeds completes, with exactly the
    transactions and the map it produces when no other table fails; the
    tables whose read rejected are left as they were; and the rejection
    only shows in the result of [initSync], which is rejected exactly when
    some read was. *)
Theorem C4_sibling_loads_complete (db : LocalDB) (settle_order : list TableKey)
    (doc : YDoc) :
  NoDup settle_order ->
  (forall t, t ∈ settle_order) ->
  exists doc',
    snd (initSync db settle_order (Some doc)) = Some doc' /\
    (forall t items, db t = Some items ->
       ymaps doc' t = ymaps (apply_batches t (batches items) doc) t /\
       own_transactions t doc' = own_transactions t doc ++ batches items) /\
    (forall t, db t = None ->
       ymaps doc' t = ymaps doc t /\
       own_transactions t doc' = own_transactions t doc) /\
    fst (initSync db settle_order (Some doc))
      = if some_rejects db settle_order
        then Rejected StoreError else Fulfilled tt.
Proof.
  intros Hnd Hall. exists (loaded_all db settle_order doc).
  unfold initSync. rewrite initSync_fold. cbn [fst snd].
  split; [reflexivity|]. split; [|split; [|reflexivity]].
  - intros t items Hdb.
    rewrite loaded_all_ymaps, loaded_all_own by assumption.
    rewrite !decide_True by apply Hall.
    unfold loaded_map, loaded_batches. rewrite Hdb.
    rewrite apply_batches_same, concat_batches. auto.
  - intros t Hdb.
    rewrite loaded_all_ymaps, loaded_all_own by assumption.
    rewrite !decide_True by apply Hall.
    unfold loaded_map, loaded_batches. rewrite Hdb, app_nil_r. auto.
Qed.

Lemma C4_sibling_loads_complete_witness :
  exists doc',
    snd (initSync db_topics_fails some_order (Some empty_doc)) = Some doc' /\
    (forall t items, db_topics_fails t = Some items ->
       ymaps doc' t = ymaps (apply_batches t (batches items) empty_doc) t /\
       own_transactions t doc'
         = own_transactions t empty_doc ++ batches items) /\
    (forall t, db_topics_fails t = None ->
       ymaps doc' t = ymaps empty_doc t /\
       own_transactions t doc' = own_transactions t empty_doc) /\
    fst (initSync db_topics_fails some_order (Some empty_doc))
      = if some_rejects db_topics_fails some_order
        then Rejected StoreError else Fulfilled tt.
Proof.
  apply (C4_sibling_loads_complete db_topics_fails some_order empty_doc).
  - apply (bool_decide_unpack (NoDup some_order)). vm_compute. reflexivity.
  - intros t. apply (bool_decide_unpack (t ∈ some_order)).
    destruct t; vm_compute; reflexivity.
Defined.

(** With [topics] failing first, [initSync] is rejected and the four other
    tables are loaded all the same. *)
Example topics_fails_siblings_load :
  fst (initSync db_topics_fails some_order (Some empty_doc))
    = Rejected StoreError /\
  match snd (initSync db_topics_fails some_order (Some empty_doc)) with
  | Some doc' =>
      map (fun t => size (ymaps doc' t)) allTables = [3; 60; 0; 60; 60] /\
      map (fun tb => (fst tb, length (snd tb))) (transactions doc')
        = [(plugins, 50); (plugins, 10); (sessions, 3); (messages, 50);
           (messages, 10); (sessionGroups, 50); (sessionGroups, 10)]
  | None => False
  end.
Proof. vm_compute. auto. Qed.

(** ** C3: echo suppression *)

(** C3.  For every change event whose transaction is local, the handler
    returns at once: it leaves the local table without any call (no add, no
    update, no delete, not even a read), emits no status, neither cancels
    nor arms a timeout, and has nothing left to run later; delivering the
    event changes nothing but what the clock does. *)
Theorem C3_local_event_discarded (yItemMap : gmap string Item)
    (ev : ChangeEvent) (now : Z) (s : Obs) :
  local ev = true ->
  observer_start ev now s = (s, false) /\
  happen yItemMap s (now, Delivered ev) = fire_due now s /\
  happen yItemMap s (now, Settled ev) = fire_due now s /\
  let s' := fst (observer_start ev now s) in
  table s' = table s /\ statuses s' = statuses s /\
  syncEvents s' = syncEvents s /\ timers s' = timers s /\
  debounceTimer s' = debounceTimer s.
Proof.
  intros Hl. unfold happen, observer_start. cbn [fst snd]. rewrite Hl.
  cbn [fst]. repeat split; reflexivity.
Qed.

Lemma C3_local_event_discarded_witness :
  observer_start local_edit 100 busy_state = (busy_state, false) /\
  happen {[ "a" := item_a ]} busy_state (100%Z, Delivered local_edit)
    = fire_due 100 busy_state /\
  happen {[ "a" := item_a ]} busy_state (100%Z, Settled local_edit)
    = fire_due 100 busy_state /\
  let s' := fst (observer_start local_edit 100 busy_state) in
  table s' = table busy_state /\ statuses s' = statuses busy_state /\
  syncEvents s' = syncEvents busy_state /\ timers s' = timers busy_state /\
  debounceTimer s' = debounceTimer busy_state.
Proof.
  apply (C3_local_event_discarded {[ "a" := item_a ]} local_edit 100 busy_state).
  reflexivity.
Defined.

(** ** C7: the mapping of actions to table operations *)

(** C7.  For a changed key whose record in the replicated map is [item]:
    on a table that holds the identifier, an ['add'] is applied as an
    update (a read, then [update], no [add]) and so is an ['update']; on a
    table that does not hold it, ['add'] and ['update'] both insert (a read,
    then [add]); either way the table then holds [item] under the
    identifier; and a ['delete'] of an identifier the table does not hold
    issues one [delete], leaves the rows as they were and fulfils. *)
Theorem C7_action_mapping (yItemMap : gmap string Item)
    (present absent : Table) (k : string) (item old : Item) :
  yItemMap !! k = Some item ->
  rows present !! k = Some old ->
  rows absent !! k = None ->
  apply_change yItemMap (k, Add) present
    = (Fulfilled tt,
       {| rows := <[k := item]> (rows present);
          calls := calls present ++ [TGet k; TUpdate k (Some item)] |}) /\
  apply_change yItemMap (k, Update) present
    = (Fulfilled tt,
       {| rows := <[k := item]> (rows present);
          calls := calls present ++ [TGet k; TUpdate k (Some item)] |}) /\
  apply_change yItemMap (k, Update) absent
    = (Fulfilled tt,
       {| rows := <[k := item]> (rows absent);
          calls := calls absent ++ [TGet k; TAdd (Some item) k] |}) /\
  apply_change yItemMap (k, Add) absent
    = (Fulfilled tt,
       {| rows := <[k := item]> (rows absent);
          calls := calls absent ++ [TGet k; TAdd (Some item) k] |}) /\
  apply_change yItemMap (k, Delete) absent
    = (Fulfilled tt,
       {| rows := rows absent; calls := calls absent ++ [TDelete k] |}).
Proof.
  intros Hy Hp Ha.
  unfold apply_change, table_get, table_add, table_update, table_delete,
    called.
  cbn [rows calls]. rewrite Hy, Hp, Ha, <- !app_assoc.
  rewrite (delete_id _ _ Ha). repeat split; reflexivity.
Qed.

Lemma C7_action_mapping_witness :
  apply_change {[ "a" := item_a ]} ("a", Add) table_with_a
    = (Fulfilled tt,
       {| rows := <["a" := item_a]> (rows table_with_a);
          calls := calls table_with_a ++ [TGet "a"; TUpdate "a" (Some item_a)] |}) /\
  apply_change {[ "a" := item_a ]} ("a", Update) table_with_a
    = (Fulfilled tt,
       {| rows := <["a" := item_a]> (rows table_with_a);
          calls := calls table_with_a ++ [TGet "a"; TUpdate "a" (Some item_a)] |}) /\
  apply_change {[ "a" := item_a ]} ("a", Update) table_without_a
    = (Fulfilled tt,
       {| rows := <["a" := item_a]> (rows table_without_a);
          calls := calls table_without_a ++ [TGet "a"; TAdd (Some item_a) "a"] |}) /\
  apply_change {[ "a" := item_a ]} ("a", Add) table_without_a
    = (Fulfilled tt,
       {| rows := <["a" := item_a]> (rows table_without_a);
          calls := calls table_without_a ++ [TGet "a"; TAdd (Some item_a) "a"] |}) /\
  apply_change {[ "a" := item_a ]} ("a", Delete) table_without_a
    = (Fulfilled tt,
       {| rows := rows table_without_a;
          calls := calls table_without_a ++ [TDelete "a"] |}).
Proof.
  apply (C7_action_mapping {[ "a" := item_a ]} table_with_a table_without_a
           "a" item_a item_a_old); reflexivity.
Defined.

(** ** C5: the settle debounce *)

Lemma apply_change_ok yItemMap ch tb :
  snd ch = Delete \/ is_Some (yItemMap !! fst ch) ->
  fst (apply_change yItemMap ch tb) = Fulfilled tt.
Proof.
  destruct ch as [k a]. cbn [fst snd]. intros H.
  unfold apply_change, table_get, table_add, table_update, table_delete.
  cbn [rows called].
  destruct a; try reflexivity;
    (destruct H as [H|[it H]]; [discriminate H|]; rewrite H;
     destruct (rows tb !! k); reflexivity).
Qed.

Lemma apply_changes_ok yItemMap chs tb :
  Forall (fun ch => snd ch = Delete \/ is_Some (yItemMap !! fst ch)) chs ->
  fst (apply_changes yItemMap chs tb) = Fulfilled tt.
Proof.
  unfold apply_changes. revert tb.
  induction chs as [|ch chs IH]; intros tb H; [reflexivity|].
  apply Forall_cons in H. destruct H as [Hch H].
  cbn [foldl fst snd].
  pose proof (apply_change_ok yItemMap ch tb Hch) as E.
  destruct (apply_change yItemMap ch tb) as [r tb'].
  cbn [fst] in E. subst r. apply IH, H.
Qed.

Lemma filter_due_later (i : nat) (d now : Z) :
  (now < d)%Z ->
  filter (fun x : nat * Z => (snd x <= now)%Z) [(i, d)] = [] /\
  filter (fun x : nat * Z => ~ (snd x <= now)%Z) [(i, d)] = [(i, d)].
Proof.
  intros H. rewrite !filter_cons. cbn [snd].
  rewrite decide_False by lia. rewrite decide_True by lia. auto.
Qed.

Lemma filter_due_now (i : nat) (d now : Z) :
  (d <= now)%Z ->
  filter (fun x : nat * Z => (snd x <= now)%Z) [(i, d)] = [(i, d)] /\
  filter (fun x : nat * Z => ~ (snd x <= now)%Z) [(i, d)] = [].
Proof.
  intros H. rewrite !filter_cons. cbn [snd].
  rewrite decide_True by lia. rewrite decide_False by lia. auto.
Qed.

Lemma filter_cleared (i : nat) (d : Z) :
  filter (fun x : nat * Z => fst x <> i) [(i, d)] = [].
Proof.
  rewrite filter_cons. cbn [fst]. rewrite decide_False by tauto. reflexivity.
Qed.

Lemma fire_due_idle now s :
  settling s now -> fire_due now s = s.
Proof.
  destruct s as [tb st se ti db nx]. unfold settling, fire_due.
  cbn [timers debounceTimer table statuses syncEvents next_timer].
  intros [->|(i & d & -> & _ & Hd)].
  - cbn. rewrite app_nil_r. reflexivity.
  - destruct (filter_due_later i d now Hd) as [-> ->].
    cbn [map]. rewrite app_nil_r. reflexivity.
Qed.

Lemma observer_start_remote ev now s :
  local ev = false -> settling s now ->
  observer_start ev now s =
  ({| table := table s; statuses := statuses s ++ [(now, syncing)];
      syncEvents := syncEvents s; timers := [];
      debounceTimer := debounceTimer s; next_timer := next_timer s |}, true).
Proof.
  intros Hl Hs. unfold observer_start. rewrite Hl.
  destruct s as [tb st se ti db nx]. unfold settling in Hs.
  cbn [timers debounceTimer table statuses syncEvents next_timer] in *.
  destruct Hs as [->|(i & d & -> & -> & _)].
  - destruct db; reflexivity.
  - unfold clearTimeout. cbn [timers]. rewrite filter_cleared. reflexivity.
Qed.

Lemma observer_resume_ok yItemMap ev now s :
  applicable yItemMap ev ->
  let s' := observer_resume yItemMap ev now s in
  timers s' = timers s ++ [(next_timer s, (now + 2000)%Z)] /\
  debounceTimer s' = Some (next_timer s) /\
  statuses s' = statuses s /\
  next_timer s' = S (next_timer s).
Proof.
  intros [_ Hk]. unfold observer_resume.
  pose proof (apply_changes_ok yItemMap (keys ev) (table s) Hk) as E.
  destruct (apply_changes yItemMap (keys ev) (table s)) as [r tb'].
  cbn [fst] in E. subst r. cbn. auto.
Qed.

(** One event, delivered and settled with nothing in between. *)
Lemma one_event yItemMap ev a c s :
  applicable yItemMap ev -> settling s a -> (a <= c)%Z ->
  let s' := happen yItemMap (happen yItemMap s (a, Delivered ev))
              (c, Settled ev) in
  timers s' = [(next_timer s, (c + 2000)%Z)] /\
  debounceTimer s' = Some (next_timer s) /\
  statuses s' = statuses s ++ [(a, syncing)] /\
  next_timer s' = S (next_timer s).
Proof.
  intros Hev Hs Hac. pose proof Hev as [Hl _].
  unfold happen. cbn [fst snd]. rewrite Hl.
  rewrite (fire_due_idle a s Hs).
  rewrite (observer_start_remote ev a s Hl Hs). cbn [fst].
  rewrite fire_due_idle by (left; reflexivity).
  match goal with |- context [observer_resume _ _ _ ?s1] =>
    destruct (observer_resume_ok yItemMap ev c s1 Hev) as (H1 & H2 & H3 & H4)
  end.
  rewrite H1, H2, H3, H4. cbn. auto.
Qed.

Lemma run_one_by_one yItemMap es : forall s a c i,
  timers s = [(i, (c + 2000)%Z)] -> debounceTimer s = Some i ->
  Forall (applicable yItemMap) (map snd es) ->
  (a <= c)%Z -> spaced a c es ->
  let s' := foldl (happen yItemMap) s (one_by_one es) in
  exists j,
    timers s' = [(j, (last_settled c es + 2000)%Z)] /\
    debounceTimer s' = Some j /\
    statuses s' = statuses s ++ map (fun e => (fst (fst e), syncing)) es.
Proof.
  induction es as [|[[a' c'] ev] es IH]; intros s a c i Ht Hd Hall Hac Hsp.
  - exists i. cbn. rewrite app_nil_r. auto.
  - cbn [map snd] in Hall. apply Forall_cons in Hall.
    destruct Hall as [Hev Hall].
    destruct Hsp as (Hca & Ha' & Hac' & Hsp).
    assert (Hs : settling s a').
    { right. exists i, (c + 2000)%Z. repeat split; auto. lia. }
    destruct (one_event yItemMap ev a' c' s Hev Hs Hac') as (H1 & H2 & H3 & _).
    change (one_by_one ((a', c', ev) :: es))
      with ([(a', Delivered ev); (c', Settled ev)] ++ one_by_one es).
    rewrite foldl_app. cbn [foldl].
    destruct (IH _ a' c' _ H1 H2 Hall Hac' Hsp) as (j & J1 & J2 & J3).
    exists j. cbn [last_settled]. split; [exact J1|]. split; [exact J2|].
    rewrite J3, H3, <- app_assoc. reflexivity.
Qed.

(** The debounce when events are handled one by one.  Remote events, each
    delivered less than 2000ms after the one before and each applied before
    the next one is delivered: ['syncing'] is emitted at every delivery, and
    ['synced'] exactly once, 2000ms after the applications of the last event
    have settled, with no ['synced'] before. *)
Lemma debounce_one_by_one (yItemMap : gmap string Item) (a1 c1 : Z)
    (ev1 : ChangeEvent) (es : list (Z * Z * ChangeEvent)) (until : Z)
    (s0 : Obs) :
  timers s0 = [] ->
  applicable yItemMap ev1 ->
  Forall (applicable yItemMap) (map snd es) ->
  (a1 <= c1)%Z -> spaced a1 c1 es ->
  (last_settled c1 es + 2000 <= until)%Z ->
  statuses (timeline yItemMap (one_by_one ((a1, c1, ev1) :: es)) until s0)
  = statuses s0 ++
    map (fun e => (fst (fst e), syncing)) ((a1, c1, ev1) :: es) ++
    [((last_settled c1 es + 2000)%Z, synced)].
Proof.
  intros Ht Hev Hall Hac Hsp Hu. unfold timeline.
  assert (Hs : settling s0 a1) by (left; exact Ht).
  destruct (one_event yItemMap ev1 a1 c1 s0 Hev Hs Hac) as (H1 & H2 & H3 & _).
  change (one_by_one ((a1, c1, ev1) :: es))
    with ([(a1, Delivered ev1); (c1, Settled ev1)] ++ one_by_one es).
  rewrite foldl_app. cbn [foldl].
  destruct (run_one_by_one yItemMap es _ a1 c1 _ H1 H2 Hall Hac Hsp)
    as (j & J1 & J2 & J3).
  unfold fire_due. cbn [statuses]. rewrite J1, J3, H3.
  destruct (filter_due_now j (last_settled c1 es + 2000) until Hu) as [-> _].
  cbn [map snd]. rewrite <- !app_assoc. reflexivity.
Qed.

(** The example of the specification: remote changes at 0, 500 and 1000ms,
    applied at once. *)
Example debounce_0_500_1000 :
  statuses (timeline ymap_a
              (one_by_one [(0, 0, remote_touch); (500, 500, remote_touch);
                           (1000, 1000, remote_touch)]%Z) 10000 start_state)
  = [(0, syncing); (500, syncing); (1000, syncing); (3000, synced)]%Z.
Proof. vm_compute. reflexivity. Qed.

(** C5, at the failing input.  With the second event delivered before the
    applications of the first have settled, both handlers arm a timeout that
    nothing cancels: ['synced'] is emitted twice, at 2050ms and at 2060ms. *)
Theorem C5_overlapping_events_synced_twice :
  statuses (timeline ymap_a overlapping 10000 start_state)
  = [(0, syncing); (10, syncing); (2050, synced); (2060, synced)]%Z /\
  timers (foldl (happen ymap_a) start_state overlapping)
  = [(0, 2050%Z); (1, 2060%Z)] /\
  debounceTimer (foldl (happen ymap_a) start_state overlapping) = Some 1.
Proof. repeat split; vm_compute; reflexivity. Qed.

(** * Further properties of the engine *)

(** ** The global cleanup slot *)

Lemma fields_connected env ps w :
  cleanup_slot (connected env ps w)
  = (if development env then Some (S (next_id w)) else cleanup_slot w) /\
  provider (connected env ps w) = Some (S (next_id w)) /\
  _ydoc (connected env ps w) = Some (next_id w).
Proof. repeat split; reflexivity. Qed.

Lemma cleanup_slot_torn_down env p w :
  cleanup_slot (torn_down env p w) = cleanup_slot w.
Proof.
  unfold torn_down.
  destruct (fields_emits (teardown_events env p (_ydoc w)) w)
    as (_ & _ & _ & _ & H & _). exact H.
Qed.

Lemma cleanup_slot_clean_this env w :
  cleanup_slot (clean_this env w) = cleanup_slot w.
Proof.
  unfold clean_this. destruct (provider w); auto using cleanup_slot_torn_down.
Qed.

Lemma cleanup_slot_call_production env c w :
  has_window env = true -> development env = false ->
  cleanup_slot (snd (run (exec env c) w)) = cleanup_slot w.
Proof.
  intros Hw Hd. destruct c as [ps|ps|]; unfold exec.
  - rewrite run_startDataSync by assumption. cbn [snd]. unfold started.
    destruct (fields_connected env ps
      match cleanup_slot (set_onAwarenessChange (set_syncParams ps w)) with
      | Some p => torn_down env p (set_onAwarenessChange (set_syncParams ps w))
      | None => set_onAwarenessChange (set_syncParams ps w)
      end) as (-> & _). rewrite Hd.
    cbn [cleanup_slot set_onAwarenessChange set_syncParams].
    destruct (cleanup_slot w) eqn:E; [|exact E].
    rewrite cleanup_slot_torn_down. exact E.
  - rewrite run_reconnect_Some by assumption. cbn [snd].
    destruct (fields_connected env ps (clean_this env w)) as (-> & _).
    rewrite Hd. apply cleanup_slot_clean_this.
  - rewrite run_manualSync by assumption.
    destruct (syncParams w) as [ps|]; cbn [snd].
    + destruct (fields_connected env ps (clean_this env w)) as (-> & _).
      rewrite Hd. apply cleanup_slot_clean_this.
    + apply cleanup_slot_clean_this.
Qed.

(** X1.  Outside development mode the global cleanup slot is never
    written: whatever calls of [startDataSync], [reconnect] and
    [manualSync] are made in a browser, the slot holds what it held
    before. *)
Theorem X1_production_never_writes_slot (env : Env) (cs : list Call)
    (w : World) :
  has_window env = true ->
  development env = false ->
  cleanup_slot (run_calls env cs w) = cleanup_slot w.
Proof.
  intros Hw Hd. revert w. induction cs as [|c cs IH]; intros w.
  - reflexivity.
  - cbn [run_calls foldl]. fold (run_calls env cs (snd (run (exec env c) w))).
    rewrite IH. apply cleanup_slot_call_production; assumption.
Qed.

Lemma X1_production_never_writes_slot_witness :
  cleanup_slot (run_calls browser_prod
                  [CallStartDataSync p1; CallReconnect p2; CallManualSync]
                  initial)
  = cleanup_slot initial.
Proof.
  apply (X1_production_never_writes_slot browser_prod
           [CallStartDataSync p1; CallReconnect p2; CallManualSync] initial);
    reflexivity.
Defined.

Lemma admissible_calls_development env cs w :
  development env = true -> admissible_calls env cs w.
Proof.
  intros Hd. revert w. induction cs as [|c cs IH]; intros w; [exact I|].
  split; [|apply IH]. destruct c; simpl; auto.
Qed.

(** X2.  In development mode, after any sequence of awaited calls on a
    fresh instance in a browser, the global cleanup slot holds exactly the
    provider the instance holds, so that a [startDataSync] after a hot
    reload can tear it down. *)
Theorem X2_development_slot_tracks_provider (env : Env) (cs : list Call) :
  has_window env = true ->
  development env = true ->
  cleanup_slot (run_calls env cs initial) = provider (run_calls env cs initial).
Proof.
  intros Hw Hd.
  apply (inv_slot env); [|exact Hd].
  apply run_calls_inv; auto using Inv_initial, admissible_calls_development.
Qed.

Lemma X2_development_slot_tracks_provider_witness :
  cleanup_slot (run_calls browser_dev
                  [CallStartDataSync p1; CallManualSync; CallReconnect p2]
                  initial)
  = provider (run_calls browser_dev
                [CallStartDataSync p1; CallManualSync; CallReconnect p2]
                initial).
Proof.
  apply (X2_development_slot_tracks_provider browser_dev
           [CallStartDataSync p1; CallManualSync; CallReconnect p2]);
    reflexivity.
Defined.

(** ** What [connect] builds *)

Lemma trace_connected env ps w :
  trace (connected env ps w)
  = trace w ++ connect_events ps (onAwarenessChange w) (next_id w).
Proof.
  unfold trace. cbn [log connected].
  rewrite rev_app_distr, rev_involutive. reflexivity.
Qed.

(** X3.  In a browser [connect] fulfils with a new provider.  It creates a
    new document, registers an observer on the map of each of the five
    tables of that document, and only then constructs the provider, bound
    to that same document, with the channel's name and password and the
    given signaling endpoint, or the default one when none is given.  What
    follows is the registration of the two provider handlers and the
    presence set-up: no further document, observer or provider. *)
Theorem X3_connect_observes_before_provider (env : Env)
    (ps : StartDataSyncParams) (w : World) :
  has_window env = true ->
  exists w' rest,
    run (connect env (Some ps)) w = (Fulfilled (S (next_id w)), w') /\
    _ydoc w' = Some (next_id w) /\
    provider w' = Some (S (next_id w)) /\
    trace w' = trace w ++
      [EvNewDoc (next_id w)] ++
      [EvObserve (next_id w) sessions; EvObserve (next_id w) sessionGroups;
       EvObserve (next_id w) topics; EvObserve (next_id w) messages;
       EvObserve (next_id w) plugins] ++
      [EvNewProvider (S (next_id w)) (channel_name ps) (channel_password ps)
         (match signaling ps with
          | Some url => url
          | None => "wss://y-webrtc-signaling.lobehub.com"
          end) (Some (next_id w))] ++
      rest /\
    Forall (fun e => match e with
                     | EvNewDoc _ | EvObserve _ _ | EvNewProvider _ _ _ _ _ =>
                         False
                     | _ => True
                     end) rest.
Proof.
  intros Hw. exists (connected env ps w).
  exists ([EvOn (S (next_id w)) "status"; EvOn (S (next_id w)) "synced";
           EvSetLocalState (S (next_id w)) (user ps)] ++
          (if onAwarenessChange w
           then [EvAwarenessChange
                   [{| ae_user := user ps; ae_clientID := S (next_id w);
                       ae_current := true |}]]
           else []) ++
          [EvAwarenessOn (S (next_id w))]).
  split; [apply run_connect_Some, Hw|]. split; [reflexivity|].
  split; [reflexivity|]. split.
  - rewrite trace_connected. unfold connect_events.
    destruct (signaling ps); reflexivity.
  - destruct (onAwarenessChange w); repeat constructor.
Qed.

Lemma X3_connect_observes_before_provider_witness :
  exists w' rest,
    run (connect browser_prod (Some p2)) one_session
      = (Fulfilled (S (next_id one_session)), w') /\
    _ydoc w' = Some (next_id one_session) /\
    provider w' = Some (S (next_id one_session)) /\
    trace w' = trace one_session ++
      [EvNewDoc (next_id one_session)] ++
      [EvObserve (next_id one_session) sessions;
       EvObserve (next_id one_session) sessionGroups;
       EvObserve (next_id one_session) topics;
       EvObserve (next_id one_session) messages;
       EvObserve (next_id one_session) plugins] ++
      [EvNewProvider (S (next_id one_session)) (channel_name p2)
         (channel_password p2)
         (match signaling p2 with
          | Some url => url
          | None => "wss://y-webrtc-signaling.lobehub.com"
          end) (Some (next_id one_session))] ++
      rest /\
    Forall (fun e => match e with
                     | EvNewDoc _ | EvObserve _ _ | EvNewProvider _ _ _ _ _ =>
                         False
                     | _ => True
                     end) rest.
Proof.
  apply (X3_connect_observes_before_provider browser_prod p2 one_session).
  reflexivity.
Defined.

(** ** Sessions after a reconnect *)

(** X4.  After any admissible sequence of awaited calls on a fresh instance
    in a browser, a [reconnect] with parameters fulfils and leaves exactly
    one provider and exactly one document alive: the ones the instance
    holds. *)
Theorem X4_reconnect_restores_one_session (env : Env) (cs : list Call)
    (ps : StartDataSyncParams) :
  has_window env = true ->
  admissible_calls env cs initial ->
  exists w' p d,
    run (reconnect env (Some ps)) (run_calls env cs initial)
      = (Fulfilled tt, w') /\
    provider w' = Some p /\ _ydoc w' = Some d /\
    live_providers (log w') = [p] /\ live_docs (log w') = [d].
Proof.
  intros Hw Hadm.
  pose proof (run_calls_inv env cs initial Hw (Inv_initial env) Hadm) as HI.
  set (w := run_calls env cs initial) in *.
  destruct (clean_this_inv env w HI) as [HI1 [Hp Hd]].
  destruct (connect_hist ps (onAwarenessChange (clean_this env w))
              (next_id (clean_this env w)) (log (clean_this env w))
              (inv_hist _ _ HI1) Hp Hd) as (_ & H2 & H3).
  exists (connected env ps (clean_this env w)),
    (S (next_id (clean_this env w))), (next_id (clean_this env w)).
  split; [apply run_reconnect_Some, Hw|]. auto.
Qed.

Lemma X4_reconnect_restores_one_session_witness :
  exists w' p d,
    run (reconnect browser_prod (Some p2))
        (run_calls browser_prod [CallManualSync; CallStartDataSync p1] initial)
      = (Fulfilled tt, w') /\
    provider w' = Some p /\ _ydoc w' = Some d /\
    live_providers (log w') = [p] /\ live_docs (log w') = [d].
Proof.
  apply (X4_reconnect_restores_one_session browser_prod
           [CallManualSync; CallStartDataSync p1] p2).
  - reflexivity.
  - simpl. repeat split. right. reflexivity.
Defined.

(** ** Reconnecting before any [startDataSync] *)

Lemma elem_of_rev {A} (x : A) (l : list A) : x ∈ l -> x ∈ rev l.
Proof.
  intros H. apply list_elem_of_In. apply in_rev. rewrite rev_involutive.
  apply list_elem_of_In, H.
Qed.

Lemma last_start_stored cs acc :
  foldl stored_after acc cs =
  match last_start cs with Some ps => Some ps | None => acc end.
Proof.
  unfold last_start.
  change (fun acc c => match c with
                       | CallStartDataSync ps => Some ps
                       | _ => acc
                       end) with stored_after.
  revert acc. induction cs as [|c cs IH] using rev_ind; intros acc.
  - reflexivity.
  - rewrite !foldl_app. cbn [foldl]. destruct c; cbn [stored_after]; auto.
Qed.

(** X5.  When no [startDataSync] has stored parameters yet,
    [GlobalService.reconnect(ps)] in a browser does not return [true]: the
    first reconnect builds a session for [ps], then [manualSync] tears that
    session down, finds no stored parameters and rejects with a
    [TypeError].  Nothing is alive afterwards, while the instance still
    holds the provider and the document it has destroyed. *)
Theorem X5_reconnect_before_start_disconnects (env : Env) (cs : list Call)
    (ps : StartDataSyncParams) :
  has_window env = true ->
  admissible_calls env cs initial ->
  last_start cs = None ->
  exists w' p d,
    run (GlobalService_reconnect env ps) (run_calls env cs initial)
      = (Rejected TypeError, w') /\
    live_providers (log w') = [] /\ live_docs (log w') = [] /\
    provider w' = Some p /\ _ydoc w' = Some d /\
    EvNewProvider p (channel_name ps) (channel_password ps)
      (default default_signaling (signaling ps)) (Some d) ∈ log w' /\
    EvProviderDestroy p ∈ log w' /\ EvDocDestroy d ∈ log w'.
Proof.
  intros Hw Hadm Hls.
  pose proof (run_calls_inv env cs initial Hw (Inv_initial env) Hadm) as HI.
  assert (Hs : syncParams (run_calls env cs initial) = None).
  { rewrite syncParams_run_calls by assumption.
    rewrite last_start_stored, Hls. reflexivity. }
  set (w := run_calls env cs initial) in *.
  destruct (clean_this_inv env w HI) as [HI1 Hna].
  pose proof (connected_inv env ps _ HI1 Hna) as HI2.
  set (w1 := connected env ps (clean_this env w)) in *.
  assert (Hs1 : syncParams w1 = None).
  { unfold w1. cbn [syncParams connected].
    rewrite syncParams_clean_this. exact Hs. }
  destruct (clean_this_inv env w1 HI2) as [_ [Hp Hd]].
  exists (clean_this env w1), (S (next_id (clean_this env w))),
    (next_id (clean_this env w)).
  split.
  { unfold GlobalService_reconnect. rewrite Hw.
    rewrite run_bind, run_await, run_reconnect_Some by assumption.
    fold w1. rewrite run_bind, run_await, run_manualSync by assumption.
    rewrite Hs1. reflexivity. }
  split; [exact Hp|]. split; [exact Hd|].
  assert (E : clean_this env w1
              = torn_down env (S (next_id (clean_this env w))) w1)
    by reflexivity.
  rewrite E. unfold torn_down.
  destruct (fields_emits
              (teardown_events env (S (next_id (clean_this env w))) (_ydoc w1))
              w1) as (Ed & Ep & _).
  split; [rewrite Ep; reflexivity|]. split; [rewrite Ed; reflexivity|].
  rewrite log_emits.
  change (_ydoc w1) with (Some (next_id (clean_this env w))).
  split; [|split].
  - apply elem_of_app. right. unfold w1. cbn [log connected].
    apply elem_of_app. left. apply elem_of_rev. unfold connect_events.
    apply elem_of_app. right. apply elem_of_app. right.
    apply list_elem_of_here.
  - apply elem_of_app. left. apply elem_of_rev. unfold teardown_events.
    apply elem_of_app. right. apply elem_of_app. right.
    apply list_elem_of_further, list_elem_of_here.
  - apply elem_of_app. left. apply elem_of_rev. unfold teardown_events.
    apply elem_of_app. right. apply elem_of_app. right.
    do 2 apply list_elem_of_further. apply list_elem_of_here.
Qed.

Lemma X5_reconnect_before_start_disconnects_witness :
  exists w' p d,
    run (GlobalService_reconnect browser_prod p1)
        (run_calls browser_prod [CallReconnect p2] initial)
      = (Rejected TypeError, w') /\
    live_providers (log w') = [] /\ live_docs (log w') = [] /\
    provider w' = Some p /\ _ydoc w' = Some d /\
    EvNewProvider p (channel_name p1) (channel_password p1)
      (default default_signaling (signaling p1)) (Some d) ∈ log w' /\
    EvProviderDestroy p ∈ log w' /\ EvDocDestroy d ∈ log w'.
Proof.
  apply (X5_reconnect_before_start_disconnects browser_prod
           [CallReconnect p2] p1).
  - reflexivity.
  - simpl. auto.
  - reflexivity.
Defined.

(** ** Teardown and the event loop *)

(** X6.  The teardown of a [reconnect] is one turn of the event loop: the
    first segment of [reconnect] leaves exactly the state that
    [cleanConnection(this.provider)] leaves, with all of its releases and
    nothing of the connect yet.  No other task sees a provider that is
    half torn down. *)
Theorem X6_teardown_is_one_turn (env : Env)
    (params : option StartDataSyncParams) (w : World) :
  snd (segment (reconnect env params) w)
    = snd (run (cleanConnection env (provider w)) w).
Proof.
  destruct env as [hw dev hr]. destruct w as [d pr sp cb sl n l].
  destruct pr as [p|]; [|destruct params, hw; reflexivity].
  destruct (hr p) eqn:E, d as [d|], params as [ps|], hw;
    cbn; rewrite ?E; cbn; rewrite ?E; reflexivity.
Qed.

(** X7.  [startDataSync] in a browser first tears down the provider that
    the global cleanup slot names, whether or not the instance holds it
    (after a hot reload it does not), and only then connects; it stores
    its parameters and always has an awareness callback for the first
    presence list. *)
Theorem X7_startDataSync_cleans_slot_first (env : Env)
    (ps : StartDataSyncParams) (q : ProvId) (w : World) :
  has_window env = true ->
  cleanup_slot w = Some q ->
  exists w',
    run (startDataSync env ps) w = (Fulfilled tt, w') /\
    syncParams w' = Some ps /\
    trace w' = trace w ++
      teardown_events env q (_ydoc w) ++
      connect_events ps true (next_id w).
Proof.
  intros Hw Hq. exists (started env ps w).
  split; [apply run_startDataSync, Hw|]. unfold started.
  cbn [cleanup_slot set_onAwarenessChange set_syncParams]. rewrite Hq.
  set (w0 := set_onAwarenessChange (set_syncParams ps w)).
  destruct (fields_emits (teardown_events env q (_ydoc w0)) w0)
    as (_ & _ & Hs & Hcb & _ & Hn).
  split.
  - cbn [syncParams connected]. unfold torn_down. rewrite Hs. reflexivity.
  - rewrite trace_connected. unfold torn_down.
    rewrite Hcb, Hn, trace_emits, <- app_assoc. reflexivity.
Qed.

Lemma X7_startDataSync_cleans_slot_first_witness :
  exists w',
    run (startDataSync browser_dev p1) reloaded = (Fulfilled tt, w') /\
    syncParams w' = Some p1 /\
    trace w' = trace reloaded ++
      teardown_events browser_dev 7 (_ydoc reloaded) ++
      connect_events p1 true (next_id reloaded).
Proof.
  apply (X7_startDataSync_cleans_slot_first browser_dev p1 7 reloaded);
    reflexivity.
Defined.

(** X8.  A teardown destroys the document and the provider but clears
    neither handle.  After a [manualSync] that finds no stored parameters
    (it tears down, then rejects), the instance still holds the destroyed
    provider and document: [getYMap] hands out a map of the destroyed
    document and [transact] runs on it. *)
Theorem X8_handles_survive_teardown (env : Env) (t : TableKey)
    (p : ProvId) (d : DocId) (w : World) :
  has_window env = true ->
  syncParams w = None ->
  provider w = Some p ->
  _ydoc w = Some d ->
  exists w',
    run (manualSync env) w = (Rejected TypeError, w') /\
    provider w' = Some p /\ _ydoc w' = Some d /\
    (exists before, trace w' = before ++ [EvProviderDestroy p; EvDocDestroy d]) /\
    run (getYMap t) w' = (Fulfilled (Some (d, t)), w') /\
    trace (snd (run transact w')) = trace w' ++ [EvTransact d].
Proof.
  intros Hw Hs Hp Hd. exists (clean_this env w).
  rewrite run_manualSync, Hs by assumption. split; [reflexivity|].
  unfold clean_this, torn_down. rewrite Hp, Hd.
  destruct (fields_emits (teardown_events env p (Some d)) w)
    as (Ed & Ep & _).
  rewrite Ep, Ed, Hp, Hd. split; [reflexivity|]. split; [reflexivity|].
  split; [|split].
  - rewrite trace_emits. unfold teardown_events.
    exists (trace w ++ [EvAwarenessDestroy p] ++
            (if has_room env p then [EvRoomDisconnect p; EvRoomDestroy p]
             else []) ++ [EvProviderDisconnect p]).
    rewrite <- !app_assoc. reflexivity.
  - unfold getYMap. rewrite run_bind, run_get, Ed, Hd. reflexivity.
  - unfold transact. rewrite run_bind, run_get, Ed, Hd, run_act.
    unfold trace. cbn [log emit]. reflexivity.
Qed.

Lemma X8_handles_survive_teardown_witness :
  exists w',
    run (manualSync browser_prod)
        (run_calls browser_prod [CallReconnect p1] initial)
      = (Rejected TypeError, w') /\
    provider w' = Some 1 /\ _ydoc w' = Some 0 /\
    (exists before, trace w' = before ++ [EvProviderDestroy 1; EvDocDestroy 0]) /\
    run (getYMap messages) w' = (Fulfilled (Some (0, messages)), w') /\
    trace (snd (run transact w')) = trace w' ++ [EvTransact 0].
Proof.
  apply (X8_handles_survive_teardown browser_prod messages 1 0
           (run_calls browser_prod [CallReconnect p1] initial));
    reflexivity.
Defined.

(** * Further properties of the bootstrap load *)

(** X9.  Every batch but the last is full: of the batches a table of [n]
    records is cut into, each one before the last holds exactly 50 records
    and the last one holds the remaining [n - 50 (k - 1)], [k] the number
    of batches; an empty table gives no batch at all. *)
Theorem X9_batch_sizes (items : list Item) (i : nat) (b : list Item) :
  batches items !! i = Some b ->
  (S i < length (batches items) -> length b = 50) /\
  (S i = length (batches items) -> length b = length items - 50 * i) /\
  items <> [].
Proof.
  intros H. pose proof (lookup_batches items i b H) as [-> Hlen].
  pose proof (lookup_lt_Some _ _ _ H) as Hi.
  rewrite length_batches in *.
  pose proof (totalBatches_ceil (length items)) as Hc.
  rewrite length_take, length_drop in *. unfold batchSize in *.
  repeat split; try lia.
  intros ->. simpl in Hlen. lia.
Qed.

Lemma X9_batch_sizes_witness :
  (S 1 < length (batches (items_upto 123)) ->
   length (take 50 (drop 50 (items_upto 123))) = 50) /\
  (S 1 = length (batches (items_upto 123)) ->
   length (take 50 (drop 50 (items_upto 123)))
     = length (items_upto 123) - 50 * 1) /\
  items_upto 123 <> [].
Proof.
  apply (X9_batch_sizes (items_upto 123) 1
           (take 50 (drop 50 (items_upto 123)))).
  vm_compute. reflexivity.
Defined.

Lemma initSync_fold_None db ts r :
  foldl (fun st t =>
           let '(r, doc) := loadDataFromDBtoYjs db t (snd st) in
           (match fst st with
            | Rejected e => Rejected e
            | Fulfilled _ => r
            end, doc))
        (r, None) ts
  = (match r with
     | Rejected e => Rejected e
     | Fulfilled _ =>
         if some_rejects db ts then Rejected StoreError else Fulfilled tt
     end, None).
Proof.
  revert r. induction ts as [|t ts IH]; intros r.
  - destruct r as [[]|e]; reflexivity.
  - cbn [foldl]. unfold loadDataFromDBtoYjs at 2. cbn [snd fst].
    cbn [some_rejects existsb].
    destruct (db t) as [items|] eqn:E.
    + rewrite load_items_None, IH. destruct r; reflexivity.
    + rewrite IH. destruct r; reflexivity.
Qed.

(** X10.  With no document (the handle is null) the bootstrap load writes
    nothing and does not fail on that account: the load of a readable
    table fulfils without a transaction, and [initSync] leaves the handle
    null, rejected only when some read rejects. *)
Theorem X10_bootstrap_without_document (db : LocalDB) (t : TableKey)
    (items : list Item) (settle_order : list TableKey) :
  db t = Some items ->
  loadDataFromDBtoYjs db t None = (Fulfilled tt, None) /\
  initSync db settle_order None
    = (if some_rejects db settle_order
       then Rejected StoreError else Fulfilled tt, None).
Proof.
  intros Hdb. split.
  - unfold loadDataFromDBtoYjs. rewrite Hdb, load_items_None. reflexivity.
  - unfold initSync. apply initSync_fold_None.
Qed.

Lemma X10_bootstrap_without_document_witness :
  loadDataFromDBtoYjs db123 messages None = (Fulfilled tt, None) /\
  initSync db123 allTables None
    = (if some_rejects db123 allTables
       then Rejected StoreError else Fulfilled tt, None).
Proof.
  apply (X10_bootstrap_without_document db123 messages (items_upto 123)
           allTables).
  reflexivity.
Defined.

(** X11.  Loading a table a second time changes no map: the records are
    set again under the same identifiers, so every map is as after the
    first load, while the same transactions are issued once more. *)
Theorem X11_reload_changes_no_map (t : TableKey) (items : list Item)
    (doc : YDoc) :
  NoDup (map id items) ->
  exists d1 d2,
    load_items t items (Some doc) = Some d1 /\
    load_items t items (Some d1) = Some d2 /\
    (forall t', ymaps d2 t' = ymaps d1 t') /\
    transactions d2
      = transactions d1 ++ map (fun b => (t, b)) (batches items) /\
    own_transactions t d2
      = own_transactions t doc ++ batches items ++ batches items.
Proof.
  intros Hnd.
  exists (apply_batches t (batches items) doc),
    (apply_batches t (batches items) (apply_batches t (batches items) doc)).
  split; [apply load_items_Some|]. split; [apply load_items_Some|].
  split; [|split].
  - intros t'. destruct (decide (t' = t)) as [->|Hne].
    + rewrite !apply_batches_same, concat_batches.
      rewrite !set_all_union by assumption.
      rewrite (assoc_L (∪)), (idemp_L (∪)). reflexivity.
    + rewrite !apply_batches_other by assumption. reflexivity.
  - apply apply_batches_transactions.
  - rewrite !own_transactions_app, !decide_True by reflexivity.
    rewrite <- app_assoc. reflexivity.
Qed.

Lemma X11_reload_changes_no_map_witness :
  exists d1 d2,
    load_items messages (items_upto 123) (Some empty_doc) = Some d1 /\
    load_items messages (items_upto 123) (Some d1) = Some d2 /\
    (forall t', ymaps d2 t' = ymaps d1 t') /\
    transactions d2
      = transactions d1 ++
        map (fun b => (messages, b)) (batches (items_upto 123)) /\
    own_transactions messages d2
      = own_transactions messages empty_doc ++
        batches (items_upto 123) ++ batches (items_upto 123).
Proof.
  apply (X11_reload_changes_no_map messages (items_upto 123) empty_doc).
  apply (bool_decide_unpack (NoDup (map id (items_upto 123)))).
  vm_compute. reflexivity.
Defined.

Lemma some_rejects_true db ts :
  some_rejects db ts = true <-> exists t, t ∈ ts /\ db t = None.
Proof.
  unfold some_rejects. rewrite existsb_exists. split.
  - intros (t & Hin & H). exists t. split; [apply list_elem_of_In, Hin|].
    destruct (db t); [discriminate H|reflexivity].
  - intros (t & Hin & H). exists t. split; [apply list_elem_of_In, Hin|].
    rewrite H. reflexivity.
Qed.

Lemma some_rejects_same db o1 o2 :
  (forall t, t ∈ o1) -> (forall t, t ∈ o2) ->
  some_rejects db o1 = some_rejects db o2.
Proof.
  intros H1 H2.
  destruct (some_rejects db o1) eqn:E1, (some_rejects db o2) eqn:E2; auto.
  - apply some_rejects_true in E1. destruct E1 as (t & _ & Ht).
    assert (E : some_rejects db o2 = true)
      by (apply some_rejects_true; eauto).
    congruence.
  - apply some_rejects_true in E2. destruct E2 as (t & _ & Ht).
    assert (E : some_rejects db o1 = true)
      by (apply some_rejects_true; eauto).
    congruence.
Qed.

(** X12.  What the bootstrap writes does not depend on the order in which
    the reads of the five tables settle: for any two orders, every table
    ends with the same map and has received the same transactions in the
    same order, and [initSync] is rejected under the one order exactly
    when it is under the other.  (With which reason it is rejected is not
    part of the statement: that is the reason of the first read to
    reject.) *)
Theorem X12_settle_order_is_irrelevant (db : LocalDB)
    (o1 o2 : list TableKey) (doc : YDoc) :
  NoDup o1 -> (forall t, t ∈ o1) ->
  NoDup o2 -> (forall t, t ∈ o2) ->
  exists d1 d2,
    snd (initSync db o1 (Some doc)) = Some d1 /\
    snd (initSync db o2 (Some doc)) = Some d2 /\
    ((exists e, fst (initSync db o1 (Some doc)) = Rejected e) <->
     (exists e, fst (initSync db o2 (Some doc)) = Rejected e)) /\
    (fst (initSync db o1 (Some doc)) = Fulfilled tt <->
     fst (initSync db o2 (Some doc)) = Fulfilled tt) /\
    forall t, ymaps d1 t = ymaps d2 t /\
              own_transactions t d1 = own_transactions t d2.
Proof.
  intros Hn1 Ha1 Hn2 Ha2.
  exists (loaded_all db o1 doc), (loaded_all db o2 doc).
  unfold initSync. rewrite !initSync_fold. cbn [fst snd].
  rewrite (some_rejects_same db o1 o2) by assumption.
  split; [reflexivity|]. split; [reflexivity|].
  split; [reflexivity|]. split; [reflexivity|].
  intros t. rewrite !loaded_all_ymaps, !loaded_all_own by assumption.
  rewrite !decide_True by auto. auto.
Qed.

Lemma X12_settle_order_is_irrelevant_witness :
  exists d1 d2,
    snd (initSync db_topics_fails some_order (Some empty_doc)) = Some d1 /\
    snd (initSync db_topics_fails allTables (Some empty_doc)) = Some d2 /\
    ((exists e, fst (initSync db_topics_fails some_order (Some empty_doc))
                = Rejected e) <->
     (exists e, fst (initSync db_topics_fails allTables (Some empty_doc))
                = Rejected e)) /\
    (fst (initSync db_topics_fails some_order (Some empty_doc)) = Fulfilled tt
     <->
     fst (initSync db_topics_fails allTables (Some empty_doc)) = Fulfilled tt)
    /\
    forall t, ymaps d1 t = ymaps d2 t /\
              own_transactions t d1 = own_transactions t d2.
Proof.
  apply (X12_settle_order_is_irrelevant db_topics_fails some_order allTables
           empty_doc).
  - apply (bool_decide_unpack (NoDup some_order)). vm_compute. reflexivity.
  - intros t. apply (bool_decide_unpack (t ∈ some_order)).
    destruct t; vm_compute; reflexivity.
  - apply (bool_decide_unpack (NoDup allTables)). vm_compute. reflexivity.
  - intros t. apply (bool_decide_unpack (t ∈ allTables)).
    destruct t; vm_compute; reflexivity.
Defined.

(** X13.  The ['synced'] handler always reports ['syncing'] first, and
    reports ['synced'] after the bootstrap exactly when the read of every
    table succeeded: one unreadable table leaves the status at
    ['syncing'], although the other tables are loaded. *)
Theorem X13_synced_only_if_all_tables_read (db : LocalDB)
    (settle_order : list TableKey) (doc : YDoc) :
  (forall t, t ∈ settle_order) ->
  let reported := fst (on_synced_true db settle_order (Some doc)) in
  head reported = Some syncing /\
  (reported = [syncing; synced] <-> forall t, is_Some (db t)) /\
  (reported = [syncing] <-> exists t, db t = None).
Proof.
  intros Hall. unfold on_synced_true, initSync. rewrite initSync_fold.
  cbn [fst]. split; [reflexivity|].
  destruct (some_rejects db settle_order) eqn:E.
  - apply some_rejects_true in E. destruct E as (t & _ & Ht).
    split; split.
    + intros H. discriminate H.
    + intros H. destruct (H t) as [x Hx]. congruence.
    + eauto.
    + reflexivity.
  - assert (Hok : forall t, is_Some (db t)).
    { intros t. destruct (db t) eqn:Ht; [eauto|].
      assert (some_rejects db settle_order = true)
        by (apply some_rejects_true; eauto).
      congruence. }
    split; split.
    + auto.
    + reflexivity.
    + intros H. discriminate H.
    + intros (t & Ht). destruct (Hok t) as [x Hx]. congruence.
Qed.

Lemma X13_synced_only_if_all_tables_read_witness :
  let reported := fst (on_synced_true db_topics_fails some_order
                         (Some empty_doc)) in
  head reported = Some syncing /\
  (reported = [syncing; synced] <-> forall t, is_Some (db_topics_fails t)) /\
  (reported = [syncing] <-> exists t, db_topics_fails t = None).
Proof.
  apply (X13_synced_only_if_all_tables_read db_topics_fails some_order
           empty_doc).
  intros t. apply (bool_decide_unpack (t ∈ some_order)).
  destruct t; vm_compute; reflexivity.
Defined.

(** * Further properties of the change observer *)

Lemma apply_change_faithful yItemMap ch tb :
  faithful yItemMap ch ->
  exists tb',
    apply_change yItemMap ch tb = (Fulfilled tt, tb') /\
    forall k, rows tb' !! k
              = if decide (k = fst ch) then yItemMap !! k else rows tb !! k.
Proof.
  destruct ch as [k0 a]. unfold faithful. cbn [fst snd]. intros Hf.
  unfold apply_change, table_get, table_add, table_update, table_delete.
  cbn [rows called].
  assert (Hcase : (a = Delete /\ yItemMap !! k0 = None) \/
                  (a <> Delete /\ exists it, yItemMap !! k0 = Some it)).
  { destruct (yItemMap !! k0) as [it|] eqn:E.
    - right. split; [|eauto]. intros Ha. apply Hf in Ha. discriminate Ha.
    - left. split; [apply Hf|]; reflexivity. }
  destruct Hcase as [[-> Hy]|[Ha (it & Hy)]].
  - eexists. split; [reflexivity|]. intros k. cbn [rows].
    destruct (decide (k = k0)) as [->|Hne].
    + rewrite lookup_delete_eq. auto.
    + rewrite lookup_delete_ne by auto. reflexivity.
  - rewrite Hy.
    destruct a; [| |congruence];
      (destruct (rows tb !! k0) as [old|] eqn:Er;
       (eexists; split; [reflexivity|]; intros k; cbn [rows];
        destruct (decide (k = k0)) as [->|Hne];
        [rewrite lookup_insert_eq; auto
        |rewrite lookup_insert_ne by auto; reflexivity])).
Qed.

(** X14.  Applying a remote event brings the local table in line with the
    replicated map on every changed key.  When the actions agree with the
    map (a key is reported deleted exactly when the map no longer holds
    it), all applications fulfil, whatever the table held; afterwards the
    table holds under each changed key what the map holds (nothing for a
    deleted key), and under every other key what it held before. *)
Theorem X14_applied_event_matches_map (yItemMap : gmap string Item)
    (changes : list (string * Action)) (tb : Table) :
  Forall (faithful yItemMap) changes ->
  exists tb',
    apply_changes yItemMap changes tb = (Fulfilled tt, tb') /\
    forall k, rows tb' !! k
              = if decide (k ∈ map fst changes) then yItemMap !! k
                else rows tb !! k.
Proof.
  unfold apply_changes. revert tb.
  induction changes as [|ch chs IH]; intros tb H.
  - exists tb. split; [reflexivity|]. intros k.
    rewrite decide_False by apply not_elem_of_nil. reflexivity.
  - apply Forall_cons in H. destruct H as [Hch H].
    destruct (apply_change_faithful yItemMap ch tb Hch) as (tb1 & E1 & R1).
    cbn [foldl fst snd]. rewrite E1.
    destruct (IH tb1 H) as (tb' & E & R).
    exists tb'. split; [exact E|]. intros k. rewrite R, R1.
    cbn [map]. destruct (decide (k = fst ch)) as [->|Hne].
    + rewrite (decide_True (P := fst ch ∈ fst ch :: map fst chs))
        by apply list_elem_of_here.
      destruct (decide (fst ch ∈ map fst chs)); reflexivity.
    + destruct (decide (k ∈ map fst chs)) as [Hin|Hin].
      * rewrite decide_True by (apply list_elem_of_further, Hin). reflexivity.
      * rewrite decide_False; [reflexivity|].
        intros Hc. apply elem_of_cons in Hc. tauto.
Qed.

Lemma X14_applied_event_matches_map_witness :
  exists tb',
    apply_changes ymap_ac changes_acb table_with_a = (Fulfilled tt, tb') /\
    forall k, rows tb' !! k
              = if decide (k ∈ map fst changes_acb) then ymap_ac !! k
                else rows table_with_a !! k.
Proof.
  apply (X14_applied_event_matches_map ymap_ac changes_acb table_with_a).
  unfold changes_acb.
  apply Forall_cons_2; [|apply Forall_cons_2; [|apply Forall_cons_2;
    [|apply Forall_nil_2]]]; unfold faithful; cbn [fst snd]; split; intros H.
  - discriminate H.
  - vm_compute in H. discriminate H.
  - discriminate H.
  - vm_compute in H. discriminate H.
  - vm_compute. reflexivity.
  - reflexivity.
Defined.

(** ** The settle debounce, events one by one *)

(** X15.  The debounce when events are handled one by one.  For remote
    events that can be applied, each delivered less than 2000ms after the
    one before and each applied before the next one is delivered:
    ['syncing'] is reported at every delivery and ['synced'] exactly once,
    2000ms after the applications of the last event have settled, with no
    ['synced'] before; after that no timeout is pending. *)
Theorem X15_debounce_settles_once (yItemMap : gmap string Item) (a1 c1 : Z)
    (ev1 : ChangeEvent) (es : list (Z * Z * ChangeEvent)) (until : Z)
    (s0 : Obs) :
  timers s0 = [] ->
  applicable yItemMap ev1 ->
  Forall (applicable yItemMap) (map snd es) ->
  (a1 <= c1)%Z -> spaced a1 c1 es ->
  (last_settled c1 es + 2000 <= until)%Z ->
  let s := timeline yItemMap (one_by_one ((a1, c1, ev1) :: es)) until s0 in
  statuses s
  = statuses s0 ++
    map (fun e => (fst (fst e), syncing)) ((a1, c1, ev1) :: es) ++
    [((last_settled c1 es + 2000)%Z, synced)] /\
  timers s = [].
Proof.
  intros Ht Hev Hall Hac Hsp Hu. unfold timeline.
  assert (Hs : settling s0 a1) by (left; exact Ht).
  destruct (one_event yItemMap ev1 a1 c1 s0 Hev Hs Hac) as (H1 & H2 & H3 & _).
  change (one_by_one ((a1, c1, ev1) :: es))
    with ([(a1, Delivered ev1); (c1, Settled ev1)] ++ one_by_one es).
  rewrite foldl_app. cbn [foldl].
  destruct (run_one_by_one yItemMap es _ a1 c1 _ H1 H2 Hall Hac Hsp)
    as (j & J1 & J2 & J3).
  unfold fire_due. cbn [statuses timers]. rewrite J1, J3, H3.
  destruct (filter_due_now j (last_settled c1 es + 2000) until Hu) as [-> ->].
  cbn [map snd]. rewrite <- !app_assoc. auto.
Qed.

Lemma applicable_remote_touch : applicable ymap_a remote_touch.
Proof.
  split; [reflexivity|]. apply Forall_cons_2; [|apply Forall_nil_2].
  right. exists item_a. vm_compute. reflexivity.
Defined.

Lemma X15_debounce_settles_once_witness :
  let s := timeline ymap_a (one_by_one ((0, 10, remote_touch) :: three_edits)%Z)
             5000 start_state in
  statuses s
  = statuses start_state ++
    map (fun e => (fst (fst e), syncing)) ((0, 10, remote_touch) :: three_edits)%Z ++
    [((last_settled 10 three_edits + 2000)%Z, synced)] /\
  timers s = [].
Proof.
  apply (X15_debounce_settles_once ymap_a 0 10 remote_touch three_edits 5000
           start_state).
  - reflexivity.
  - exact applicable_remote_touch.
  - repeat apply Forall_cons_2; try apply Forall_nil_2;
      exact applicable_remote_touch.
  - lia.
  - simpl. lia.
  - simpl. lia.
Defined.

(** ** The settle debounce, events far apart *)

Lemma fire_due_single_due now s i d :
  timers s = [(i, d)] -> (d <= now)%Z ->
  fire_due now s =
  {| table := table s; statuses := statuses s ++ [(d, synced)];
     syncEvents := syncEvents s; timers := [];
     debounceTimer := debounceTimer s; next_timer := next_timer s |}.
Proof.
  intros Ht Hd. unfold fire_due. rewrite Ht.
  destruct (filter_due_now i d now Hd) as [-> ->]. reflexivity.
Qed.

Lemma one_event_after_quiet yItemMap ev a c s i d :
  applicable yItemMap ev -> timers s = [(i, d)] -> (d <= a)%Z -> (a <= c)%Z ->
  let s' := happen yItemMap (happen yItemMap s (a, Delivered ev))
              (c, Settled ev) in
  timers s' = [(next_timer s, (c + 2000)%Z)] /\
  debounceTimer s' = Some (next_timer s) /\
  statuses s' = statuses s ++ [(d, synced); (a, syncing)].
Proof.
  intros Hev Ht Hd Hac. pose proof Hev as [Hl _].
  unfold happen. cbn [fst snd]. rewrite Hl.
  rewrite (fire_due_single_due a s i d Ht Hd).
  rewrite observer_start_remote by (auto; left; reflexivity). cbn [fst].
  rewrite fire_due_idle by (left; reflexivity).
  match goal with |- context [observer_resume _ _ _ ?s1] =>
    destruct (observer_resume_ok yItemMap ev c s1 Hev) as (H1 & H2 & H3 & _)
  end.
  rewrite H1, H2, H3. cbn. rewrite <- app_assoc. auto.
Qed.

Lemma run_quiet yItemMap es : forall s c i,
  timers s = [(i, (c + 2000)%Z)] ->
  Forall (applicable yItemMap) (map snd es) ->
  quiet c es ->
  let s' := foldl (happen yItemMap) s (one_by_one es) in
  exists j,
    timers s' = [(j, (last_settled c es + 2000)%Z)] /\
    statuses s' = statuses s ++ quiet_statuses c es.
Proof.
  induction es as [|[[a' c'] ev] es IH]; intros s c i Ht Hall Hq.
  - exists i. cbn. rewrite app_nil_r. auto.
  - cbn [map snd] in Hall. apply Forall_cons in Hall.
    destruct Hall as [Hev Hall]. destruct Hq as (Hca & Hac' & Hq).
    destruct (one_event_after_quiet yItemMap ev a' c' s i (c + 2000)%Z
                Hev Ht ltac:(lia) Hac') as (H1 & _ & H3).
    change (one_by_one ((a', c', ev) :: es))
      with ([(a', Delivered ev); (c', Settled ev)] ++ one_by_one es).
    rewrite foldl_app. cbn [foldl].
    destruct (IH _ c' _ H1 Hall Hq) as (j & J1 & J3).
    exists j. cbn [last_settled quiet_statuses]. split; [exact J1|].
    rewrite J3, H3, <- app_assoc. reflexivity.
Qed.

(** X16.  Events far apart each get their own ['synced'].  For remote
    events that can be applied, handled one by one, each delivered more
    than 2000ms after the applications of the one before have settled:
    every event is reported as ['syncing'] at its delivery and as
    ['synced'] 2000ms after it settled, before the next one is
    delivered. *)
Theorem X16_quiet_events_settle_each (yItemMap : gmap string Item)
    (a1 c1 : Z) (ev1 : ChangeEvent) (es : list (Z * Z * ChangeEvent))
    (until : Z) (s0 : Obs) :
  timers s0 = [] ->
  applicable yItemMap ev1 ->
  Forall (applicable yItemMap) (map snd es) ->
  (a1 <= c1)%Z -> quiet c1 es ->
  (last_settled c1 es + 2000 <= until)%Z ->
  statuses (timeline yItemMap (one_by_one ((a1, c1, ev1) :: es)) until s0)
  = statuses s0 ++ [(a1, syncing)] ++ quiet_statuses c1 es ++
    [((last_settled c1 es + 2000)%Z, synced)].
Proof.
  intros Ht Hev Hall Hac Hq Hu. unfold timeline.
  assert (Hs : settling s0 a1) by (left; exact Ht).
  destruct (one_event yItemMap ev1 a1 c1 s0 Hev Hs Hac) as (H1 & _ & H3 & _).
  change (one_by_one ((a1, c1, ev1) :: es))
    with ([(a1, Delivered ev1); (c1, Settled ev1)] ++ one_by_one es).
  rewrite foldl_app. cbn [foldl].
  destruct (run_quiet yItemMap es _ c1 _ H1 Hall Hq) as (j & J1 & J3).
  unfold fire_due. cbn [statuses]. rewrite J1, J3, H3.
  destruct (filter_due_now j (last_settled c1 es + 2000) until Hu) as [-> _].
  cbn [map snd]. rewrite <- !app_assoc. reflexivity.
Qed.

Lemma X16_quiet_events_settle_each_witness :
  statuses (timeline ymap_a
              (one_by_one ((0, 10, remote_touch) :: two_late_edits)%Z)
              20000 start_state)
  = statuses start_state ++ [(0%Z, syncing)] ++
    quiet_statuses 10 two_late_edits ++
    [((last_settled 10 two_late_edits + 2000)%Z, synced)].
Proof.
  apply (X16_quiet_events_settle_each ymap_a 0 10 remote_touch two_late_edits
           20000 start_state).
  - reflexivity.
  - exact applicable_remote_touch.
  - repeat apply Forall_cons_2; try apply Forall_nil_2;
      exact applicable_remote_touch.
  - lia.
  - simpl. lia.
  - simpl. lia.
Defined.

(** * Properties of the presence list *)

Lemma filter_absent (p : nat) (l : list nat) :
  p ∉ l -> filter (fun x => x = p) l = [].
Proof.
  induction l as [|x l IH]; intros Hn; [reflexivity|].
  apply not_elem_of_cons in Hn. destruct Hn as [Hne Hn].
  rewrite filter_cons_False by congruence. apply IH, Hn.
Qed.

Lemma count_of_member (p : nat) (l : list nat) :
  NoDup l -> p ∈ l -> length (filter (fun x => x = p) l) = 1.
Proof.
  induction l as [|x l IH]; intros Hnd Hin.
  - apply elem_of_nil in Hin. contradiction.
  - apply NoDup_cons in Hnd. destruct Hnd as [Hx Hnd].
    rewrite filter_cons. destruct (decide (x = p)) as [->|Hne].
    + rewrite (filter_absent p l Hx). reflexivity.
    + apply elem_of_cons in Hin. destruct Hin as [->|Hin]; [congruence|].
      apply IH; assumption.
Qed.

(** X17.  On a presence change the UI gets the complete list, not a
    delta.  With a provider and an awareness callback,
    [syncAwarenessToUI] makes exactly one call of the callback, with one
    entry per known peer state, in order, carrying that state's user and
    client identity; an entry is marked current exactly when its client
    identity is the local one, so when the identities are pairwise
    different and the local state is among them, exactly one entry is
    current. *)
Theorem X17_presence_list_is_complete (getStates : ProvId -> list PeerState)
    (p : ProvId) (w : World) :
  provider w = Some p ->
  onAwarenessChange w = true ->
  exists l,
    run (syncAwarenessToUI getStates) w
      = (Fulfilled tt, emit (EvAwarenessChange l) w) /\
    map ae_clientID l = map ps_clientID (getStates p) /\
    map ae_user l = map ps_user (getStates p) /\
    (forall e, e ∈ l -> (ae_current e = true <-> ae_clientID e = p)) /\
    (NoDup (map ps_clientID (getStates p)) ->
     p ∈ map ps_clientID (getStates p) ->
     length (filter (fun e => ae_current e = true) l) = 1).
Proof.
  intros Hp Hcb.
  set (entry := fun s => {| ae_user := ps_user s; ae_clientID := ps_clientID s;
                            ae_current := Nat.eqb (ps_clientID s) p |}).
  exists (map entry (getStates p)).
  split; [|split; [|split; [|split]]].
  - unfold syncAwarenessToUI.
    rewrite run_bind, run_get, Hp, run_bind, run_get, Hcb. reflexivity.
  - rewrite map_map. reflexivity.
  - rewrite map_map. reflexivity.
  - intros e He. apply list_elem_of_fmap in He. destruct He as (s & -> & _).
    unfold entry. cbn [ae_current ae_clientID]. apply Nat.eqb_eq.
  - intros Hnd Hin.
    rewrite <- (count_of_member p (map ps_clientID (getStates p)) Hnd Hin).
    clear Hnd Hin. induction (getStates p) as [|s ss IH]; [reflexivity|].
    cbn [map]. destruct (decide (ps_clientID s = p)) as [E|E].
    + rewrite (filter_cons_True (fun e => ae_current e = true))
        by (unfold entry; cbn [ae_current]; apply Nat.eqb_eq, E).
      rewrite (filter_cons_True (fun x => x = p)) by exact E.
      cbn [length]. f_equal. exact IH.
    + rewrite (filter_cons_False (fun e => ae_current e = true))
        by (unfold entry; cbn [ae_current]; rewrite Nat.eqb_eq; exact E).
      rewrite (filter_cons_False (fun x => x = p)) by exact E.
      exact IH.
Qed.

Lemma X17_presence_list_is_complete_witness :
  exists l,
    run (syncAwarenessToUI three_peers) one_session
      = (Fulfilled tt, emit (EvAwarenessChange l) one_session) /\
    map ae_clientID l = map ps_clientID (three_peers 1) /\
    map ae_user l = map ps_user (three_peers 1) /\
    (forall e, e ∈ l -> (ae_current e = true <-> ae_clientID e = 1)) /\
    (NoDup (map ps_clientID (three_peers 1)) ->
     1 ∈ map ps_clientID (three_peers 1) ->
     length (filter (fun e => ae_current e = true) l) = 1).
Proof.
  apply (X17_presence_list_is_complete three_peers 1 one_session);
    reflexivity.
Defined.

(** X18.  The first presence list is the one a change would give.  What
    [initAwareness] hands to the awareness callback right after publishing
    the local state is exactly what [syncAwarenessToUI] hands over when
    the published local state is the only one known. *)
Theorem X18_first_presence_list (u : string) (p : ProvId) (w : World) :
  provider w = Some p ->
  awareness_lists (trace (snd (run (initAwareness u) w)))
  = awareness_lists
      (trace (snd (run (syncAwarenessToUI
                          (fun _ => [{| ps_clientID := p; ps_user := u |}]))
                       w))) /\
  EvSetLocalState p u ∈ trace (snd (run (initAwareness u) w)).
Proof.
  intros Hp. destruct w as [d pr sp cb sl n l]. cbn [provider] in Hp.
  subst pr. unfold trace. destruct cb; cbn; rewrite ?Nat.eqb_refl.
  - split.
    + unfold awareness_lists. rewrite !omap_app. simpl.
      rewrite ?app_nil_r. reflexivity.
    + apply elem_of_app. left. apply elem_of_app. left. apply elem_of_app.
      right. apply list_elem_of_here.
  - split.
    + unfold awareness_lists. rewrite !omap_app. simpl.
      rewrite ?app_nil_r. reflexivity.
    + apply elem_of_app. left. apply elem_of_app. right.
      apply list_elem_of_here.
Qed.

Lemma X18_first_presence_list_witness :
  awareness_lists (trace (snd (run (initAwareness "alice") one_session)))
  = awareness_lists
      (trace (snd (run (syncAwarenessToUI
                          (fun _ => [{| ps_clientID := 1; ps_user := "alice" |}]))
                       one_session))) /\
  EvSetLocalState 1 "alice"
    ∈ trace (snd (run (initAwareness "alice") one_session)).
Proof.
  apply (X18_first_presence_list "alice" 1 one_session). reflexivity.
Defined.

(** * The automatic retry *)

Lemma next_id_clean_this env w : next_id (clean_this env w) = next_id w.
Proof.
  unfold clean_this, torn_down. destruct (provider w) as [p|]; [|reflexivity].
  destruct (fields_emits (teardown_events env p (_ydoc w)) w)
    as (_ & _ & _ & _ & _ & H). exact H.
Qed.

Lemma provider_clean_this env w : provider (clean_this env w) = provider w.
Proof.
  unfold clean_this, torn_down. destruct (provider w) as [p|] eqn:E; [|exact E].
  destruct (fields_emits (teardown_events env p (_ydoc w)) w)
    as (_ & H & _). rewrite H. exact E.
Qed.

Lemma provider_allocated_connected env ps w :
  provider_allocated (connected env ps w).
Proof. intros p H. cbn in H. injection H as <-. cbn. lia. Qed.

Lemma provider_allocated_call env c w :
  has_window env = true -> provider_allocated w ->
  provider_allocated (snd (run (exec env c) w)).
Proof.
  intros Hw Hf. destruct c as [ps|ps|]; unfold exec.
  - rewrite run_startDataSync by assumption.
    apply provider_allocated_connected.
  - rewrite run_reconnect_Some by assumption.
    apply provider_allocated_connected.
  - rewrite run_manualSync by assumption. destruct (syncParams w).
    + apply provider_allocated_connected.
    + intros p. cbn [snd].
      rewrite provider_clean_this, next_id_clean_this. apply Hf.
Qed.

Lemma provider_allocated_run_calls env cs w :
  has_window env = true -> provider_allocated w ->
  provider_allocated (run_calls env cs w).
Proof.
  intros Hw. revert w. induction cs as [|c cs IH]; intros w Hf; [exact Hf|].
  apply IH, provider_allocated_call; assumption.
Qed.

Lemma Inv_emit_status env st w : Inv env w -> Inv env (emit (EvStatus st) w).
Proof.
  intros [Hh Hs Hsl]. split; cbn; auto.
  split; [|exact Hh]. unfold step_ok. cbn.
  destruct Hs as [[-> ->]|(p & d & _ & _ & -> & ->)]; cbn; auto.
Qed.

(** X19.  The automatic retry after a desync replaces the session.  After
    any admissible sequence of awaited calls in a browser has left the
    instance with a provider, the retry callback reports ['syncing'], then
    tears that provider down and connects again: it ends with a provider
    different from the one before, which is the only one alive. *)
Theorem X19_retry_builds_a_new_provider (env : Env) (cs : list Call)
    (ps : StartDataSyncParams) (p : ProvId) :
  has_window env = true ->
  admissible_calls env cs initial ->
  provider (run_calls env cs initial) = Some p ->
  exists w' p' rest,
    run (retry_after_desync env ps) (run_calls env cs initial)
      = (Fulfilled tt, w') /\
    provider w' = Some p' /\ p' <> p /\
    live_providers (log w') = [p'] /\
    trace w' = trace (run_calls env cs initial) ++ EvStatus syncing :: rest /\
    EvProviderDestroy p ∈ rest.
Proof.
  intros Hw Hadm Hp.
  pose proof (run_calls_inv env cs initial Hw (Inv_initial env) Hadm) as HI.
  assert (Hf : provider_allocated (run_calls env cs initial)).
  { apply provider_allocated_run_calls; [exact Hw|]. intros q H.
    discriminate H. }
  set (w := run_calls env cs initial) in *.
  pose proof (Inv_emit_status env syncing w HI) as HI0.
  set (w0 := emit (EvStatus syncing) w) in *.
  destruct (clean_this_inv env w0 HI0) as [HI1 [Hlp Hld]].
  destruct (connect_hist ps (onAwarenessChange (clean_this env w0))
              (next_id (clean_this env w0)) (log (clean_this env w0))
              (inv_hist _ _ HI1) Hlp Hld) as (_ & H2 & _).
  exists (connected env ps (clean_this env w0)),
    (S (next_id (clean_this env w0))),
    (teardown_events env p (_ydoc w) ++
     connect_events ps (onAwarenessChange w) (next_id w)).
  split; [|split; [|split; [|split; [|split]]]].
  - unfold retry_after_desync.
    rewrite run_bind, run_act, run_reconnect_Some by assumption. reflexivity.
  - reflexivity.
  - rewrite next_id_clean_this. cbn [next_id emit w0].
    specialize (Hf p Hp). lia.
  - exact H2.
  - rewrite trace_connected.
    assert (E : clean_this env w0 = torn_down env p w0).
    { unfold clean_this. cbn [provider emit w0]. rewrite Hp. reflexivity. }
    rewrite E. unfold torn_down.
    destruct (fields_emits (teardown_events env p (_ydoc w0)) w0)
      as (_ & _ & _ & Hcb & _ & Hn).
    rewrite Hcb, Hn, trace_emits.
    unfold trace. cbn [log emit w0 _ydoc onAwarenessChange next_id rev].
    rewrite <- !app_assoc. reflexivity.
  - apply elem_of_app. left. unfold teardown_events.
    apply elem_of_app. right. apply elem_of_app. right.
    apply list_elem_of_further, list_elem_of_here.
Qed.

Lemma X19_retry_builds_a_new_provider_witness :
  exists w' p' rest,
    run (retry_after_desync browser_prod p1)
        (run_calls browser_prod [CallStartDataSync p1] initial)
      = (Fulfilled tt, w') /\
    provider w' = Some p' /\ p' <> 1 /\
    live_providers (log w') = [p'] /\
    trace w'
      = trace (run_calls browser_prod [CallStartDataSync p1] initial) ++
        EvStatus syncing :: rest /\
    EvProviderDestroy 1 ∈ rest.
Proof.
  apply (X19_retry_builds_a_new_provider browser_prod
           [CallStartDataSync p1] p1 1).
  - reflexivity.
  - simpl. repeat split. right. reflexivity.
  - reflexivity.
Defined.
